(** * Form-field components: inline-edit state machine and option loading

    A shallow embedding of the script blocks of the Vue components
    [Input] (src/unnamed/part_003), [Textarea] (src/form/fields/Textarea.vue),
    [Select] (src/unnamed/part_002) and [Multiselect]
    (src/form/fields/Multiselect.vue).

    A component instance ([this]) is a record holding its props, the fields
    returned by [data()], and a log of the effects it has produced
    ([$emit] calls, toasts, [apiCall] requests).  Methods, watcher handlers
    and lifecycle hooks are functions from instance to instance.  An [async]
    function is split at its [await]: the part before it issues the request
    and parks a continuation; the parts after it run when the environment
    resolves or rejects the request. *)

From Stdlib Require Import List ZArith String Bool Arith Lia.
Import ListNotations.
Open Scope string_scope.
Open Scope list_scope.

(** ** JavaScript values

    [null] and [undefined] are [None].  Arrays and objects are truthy, the
    empty string is falsy. *)

(** [v || []] for a nullable array [v]. *)
Definition orEmpty {A : Type} (v : option (list A)) : list A :=
  match v with
  | Some l => l
  | None => []
  end.

(** Truthiness of a nullable string, as in [if (this.$props.url)]. *)
Definition truthyString (v : option string) : bool :=
  match v with
  | Some s => negb (String.eqb s "")
  | None => false
  end.

(** Truthiness of a nullable array or object, as in [if (this.value)]. *)
Definition truthy {A : Type} (v : option A) : bool :=
  match v with
  | Some _ => true
  | None => false
  end.

(** ** Effects *)

(** [this.$emit('update:modelValue', payload)]: the only event the
    components emit. *)
Inductive Emit (V : Type) : Type :=
| UpdateModelValue (payload : option V).
Arguments UpdateModelValue {V} payload.

(** The arguments of one call of the Toaster's [toast(summary, message,
    severity, summaryPrefix, life)] (src/unnamed/part_001). *)
Record Toast : Type := mkToast {
  summary : string;
  message : string;
  severity : string;
  summaryPrefix : option string;
  life : Z
}.

(** The report made in every [catch] block around an option fetch. *)
Definition loadFailure (label : option string) : Toast :=
  mkToast "errors.messages.couldNotLoad" "errors.messages.load" "error"
          label 5000.

(** The arguments of one [apiCall(url, method, body, headers, query)]; the
    option fetches pass no body and no headers. *)
Record Request : Type := mkRequest {
  endpoint : option string;
  method : option string;
  search : option string
}.

(** [apiCall(this.url)] *)
Definition loadRequest (url : option string) : Request :=
  mkRequest url None None.

(** [apiCall(this.url, "GET", null, null, {search: _new})] *)
Definition searchRequest (url : option string) (text : string) : Request :=
  mkRequest url (Some "GET") (Some text).

(** ** The inline-edit slice shared by the four components

    [toggleEdit], [dismissEdit] and [acceptEdit] have the same text in
    part_003 (lines 89-105), Textarea.vue (46-56), part_002 (138-154) and
    Multiselect.vue (115-125); they read and write [isEditing], [tmpVal],
    the prop [modelValue] and the emit log only. *)

Inductive Mode : Type := Display | Editing.

(** Options of the [modelValue] watcher. *)
Record WatchOpts : Type := mkWatchOpts {
  immediate : bool;
  once : bool
}.

(** Input (part_003, line 122) and Textarea (line 122): [once: true]. *)
Definition inputWatch : WatchOpts := mkWatchOpts false true.

(** Select (part_002, line 171) and Multiselect (line 262):
    [immediate: true]. *)
Definition selectWatch : WatchOpts := mkWatchOpts true false.

Section Field.

Variable V : Type.
Variable V_eq_dec : forall x y : option V, {x = y} + {x <> y}.

Record Field : Type := mkField {
  (* props *)
  readOnly : bool;
  allowEdit : bool;
  modelValue : option V;
  (* data() *)
  isEditing : bool;
  tmpVal : option V;
  (* whether the [modelValue] watcher is still registered *)
  watching : bool;
  (* effects *)
  emitted : list (Emit V);
  domInputs : nat
}.

(** [data()]: [isEditing: false, tmpVal: null]. *)
Definition initField (ro ae : bool) (mv : option V) : Field :=
  mkField ro ae mv false None true [] 0.

Definition setIsEditing (b : bool) (s : Field) : Field :=
  mkField (readOnly s) (allowEdit s) (modelValue s) b (tmpVal s)
          (watching s) (emitted s) (domInputs s).

Definition setTmpVal (v : option V) (s : Field) : Field :=
  mkField (readOnly s) (allowEdit s) (modelValue s) (isEditing s) v
          (watching s) (emitted s) (domInputs s).

Definition setModelValue (v : option V) (s : Field) : Field :=
  mkField (readOnly s) (allowEdit s) v (isEditing s) (tmpVal s)
          (watching s) (emitted s) (domInputs s).

Definition setWatching (b : bool) (s : Field) : Field :=
  mkField (readOnly s) (allowEdit s) (modelValue s) (isEditing s) (tmpVal s)
          b (emitted s) (domInputs s).

(** [this.$emit('update:modelValue', payload)] *)
Definition emit (payload : option V) (s : Field) : Field :=
  mkField (readOnly s) (allowEdit s) (modelValue s) (isEditing s) (tmpVal s)
          (watching s) (emitted s ++ [UpdateModelValue payload])
          (domInputs s).

(** [element.dispatchEvent(new Event('input'))] *)
Definition dispatchInput (s : Field) : Field :=
  mkField (readOnly s) (allowEdit s) (modelValue s) (isEditing s) (tmpVal s)
          (watching s) (emitted s) (S (domInputs s)).

Definition mode (s : Field) : Mode :=
  if isEditing s then Editing else Display.

(** *** Methods *)

(** [toggleEdit() { this.isEditing = !this.isEditing; }] *)
Definition toggleEdit (s : Field) : Field :=
  setIsEditing (negb (isEditing s)) s.

(** [dismissEdit() { this.tmpVal = this.modelValue; this.toggleEdit(); }] *)
Definition dismissEdit (s : Field) : Field :=
  toggleEdit (setTmpVal (modelValue s) s).

(** [acceptEdit() { this.$emit('update:modelValue', this.tmpVal);
                    this.toggleEdit(); }] *)
Definition acceptEdit (s : Field) : Field :=
  toggleEdit (emit (tmpVal s) s).

(** *** The [modelValue] watcher *)

(** The callback handed to [$nextTick]: in a read-only field it copies the
    committed value into [tmpVal]; otherwise it dispatches a DOM [input]
    event on the field's element.  Input and Textarea read
    [this.modelValue] when the tick runs, Select and Multiselect use the
    handler's [newValue]; the tick runs before the host can assign the
    prop again, so both are the value just assigned.  Select and
    Multiselect skip the dispatch when [document.querySelector] finds no
    element; the element of a rendered editable field exists. *)
Definition modelValueTick (newValue : option V) (s : Field) : Field :=
  if readOnly s then setTmpVal newValue s else dispatchInput s.

(** One run of the handler.  A watcher declared [once: true] is
    unregistered after its first run. *)
Definition modelValueHandler (o : WatchOpts) (newValue : option V)
           (s : Field) : Field :=
  if watching s then
    let s' := modelValueTick newValue s in
    if once o then setWatching false s' else s'
  else s.

(** Creation of the instance: [data()], then the watcher's first run when
    it is declared [immediate: true]. *)
Definition createField (o : WatchOpts) (ro ae : bool) (mv : option V)
  : Field :=
  let s := initField ro ae mv in
  if immediate o then modelValueHandler o mv s else s.

(** The host assigns a new value to the prop [modelValue]; the watcher
    fires when the value has changed.  For the strings, numbers and
    booleans that Input, Textarea and Select bind, a changed value is a
    different value; for the arrays of Multiselect see its [step]. *)
Definition hostUpdate (o : WatchOpts) (v : option V) (s : Field) : Field :=
  if V_eq_dec v (modelValue s) then s
  else modelValueHandler o v (setModelValue v s).

(** The edit widget's [v-model="tmpVal"]: typing or picking in the inline
    editor writes the draft. *)
Definition editDraft (v : option V) (s : Field) : Field :=
  setTmpVal v s.

(** *** Sequences of calls *)

Inductive EditOp : Type := OpToggle | OpAccept | OpDismiss.

Definition call (op : EditOp) (s : Field) : Field :=
  match op with
  | OpToggle => toggleEdit s
  | OpAccept => acceptEdit s
  | OpDismiss => dismissEdit s
  end.

Definition run (ops : list EditOp) (s : Field) : Field :=
  fold_left (fun st op => call op st) ops s.

(** The controls the template renders ([v-if="allowEdit"], then
    [v-if="!isEditing"] for the Edit icon and [v-else] for Check and X,
    inside the read-only branch). *)
Definition offered (op : EditOp) (s : Field) : bool :=
  readOnly s && allowEdit s &&
  match op with
  | OpToggle => negb (isEditing s)
  | OpAccept | OpDismiss => isEditing s
  end.

(** A click sequence: a call happens only where its control is rendered. *)
Fixpoint clicks (ops : list EditOp) (s : Field) : Prop :=
  match ops with
  | [] => True
  | op :: rest => offered op s = true /\ clicks rest (call op s)
  end.

End Field.

Arguments readOnly {V} _.
Arguments allowEdit {V} _.
Arguments modelValue {V} _.
Arguments isEditing {V} _.
Arguments tmpVal {V} _.
Arguments watching {V} _.
Arguments emitted {V} _.
Arguments domInputs {V} _.
Arguments mkField {V} _ _ _ _ _ _ _ _.
Arguments initField {V} _ _ _.
Arguments setIsEditing {V} _ _.
Arguments setTmpVal {V} _ _.
Arguments setModelValue {V} _ _.
Arguments setWatching {V} _ _.
Arguments emit {V} _ _.
Arguments dispatchInput {V} _.
Arguments mode {V} _.
Arguments toggleEdit {V} _.
Arguments dismissEdit {V} _.
Arguments acceptEdit {V} _.
Arguments modelValueTick {V} _ _.
Arguments modelValueHandler {V} _ _ _.
Arguments createField {V} _ _ _ _.
Arguments hostUpdate {V} _ _ _ _.
Arguments editDraft {V} _ _.
Arguments call {V} _ _.
Arguments run {V} _ _.
Arguments offered {V} _ _.
Arguments clicks {V} _ _.

(** ** Select (src/unnamed/part_002) *)

Module Select.

Section Select.

(** [V] is the type of the bound value, [O] the type of an option record. *)
Variable V : Type.
Variable O : Type.

Record t : Type := mk {
  edit : Field V;
  (* props *)
  url : option string;
  data : option (list O);
  label : option string;
  (* data() *)
  options : list O;
  isLoading : bool;
  (* effects *)
  toasts : list Toast;
  requests : list Request;
  (* requests whose [await] in [mounted] has not returned yet, by their
     position in [requests] *)
  pending : list nat
}.

Definition setOptions (l : list O) (s : t) : t :=
  mk (edit s) (url s) (data s) (label s) l (isLoading s)
     (toasts s) (requests s) (pending s).

Definition setIsLoading (b : bool) (s : t) : t :=
  mk (edit s) (url s) (data s) (label s) (options s) b
     (toasts s) (requests s) (pending s).

Definition setPending (p : list nat) (s : t) : t :=
  mk (edit s) (url s) (data s) (label s) (options s) (isLoading s)
     (toasts s) (requests s) p.

(** [this.$refs.selectToasterRef.toast(...)] *)
Definition toast (x : Toast) (s : t) : t :=
  mk (edit s) (url s) (data s) (label s) (options s) (isLoading s)
     (toasts s ++ [x]) (requests s) (pending s).

(** [await apiCall(...)]: the request is sent and the caller is parked. *)
Definition await (r : Request) (s : t) : t :=
  mk (edit s) (url s) (data s) (label s) (options s) (isLoading s)
     (toasts s) (requests s ++ [r]) (pending s ++ [List.length (requests s)]).

(** [data()]: [options: [], isLoading: !this.$props.data], and the edit
    slice with its [immediate] watcher. *)
Definition create (ro ae : bool) (mv : option V) (u : option string)
           (d : option (list O)) (lbl : option string) : t :=
  mk (createField selectWatch ro ae mv) u d lbl
     [] (negb (truthy d)) [] [] [].

(** [mounted()] up to its [await]. *)
Definition mounted (s : t) : t :=
  match data s with
  | Some d => setIsLoading false (setOptions d s)
  | None =>
      if truthyString (url s) then await (loadRequest (url s)) s else s
  end.

(** [mounted()] after the [await] returned [r]:
    [this.options = r], then [finally]. *)
Definition mountedResolved (r : list O) (s : t) : t :=
  setIsLoading false (setOptions r s).

(** [mounted()] after the [await] threw: [catch], then [finally]. *)
Definition mountedRejected (s : t) : t :=
  setIsLoading false (toast (loadFailure (label s)) s).

Definition isPending (i : nat) (s : t) : bool :=
  existsb (Nat.eqb i) (pending s).

Definition unpark (i : nat) (s : t) : t :=
  setPending (filter (fun j => negb (Nat.eqb i j)) (pending s)) s.

(** The environment settles request [i]. *)
Definition resolve (i : nat) (r : list O) (s : t) : t :=
  if isPending i s then mountedResolved r (unpark i s) else s.

Definition reject (i : nat) (s : t) : t :=
  if isPending i s then mountedRejected (unpark i s) else s.

End Select.

Arguments edit {V O} _.
Arguments url {V O} _.
Arguments data {V O} _.
Arguments label {V O} _.
Arguments options {V O} _.
Arguments isLoading {V O} _.
Arguments toasts {V O} _.
Arguments requests {V O} _.
Arguments pending {V O} _.
Arguments create {V O} _ _ _ _ _ _.
Arguments mounted {V O} _.
Arguments mountedResolved {V O} _ _.
Arguments mountedRejected {V O} _.
Arguments resolve {V O} _ _ _.
Arguments reject {V O} _ _.

End Select.

(** ** Multiselect (src/form/fields/Multiselect.vue)

    The add-new-option dialog ([addEntry], [createElement] and the fields
    they use) takes no part in the properties below and is left out. *)

Module Multiselect.

(** An option record: the identity key [id] read by the duplicate filter and
    the label key [name] ([optionLabel="name"]). *)
Record Item : Type := mkItem {
  id : Z;
  name : string
}.

Definition Item_eq_dec (x y : Item) : {x = y} + {x <> y}.
Proof.
  decide equality; [apply string_dec | apply Z.eq_dec].
Defined.

Definition value_eq_dec (x y : option (list Item)) : {x = y} + {x <> y}.
Proof.
  decide equality; apply list_eq_dec, Item_eq_dec.
Defined.

(** *** Array helpers used by the duplicate filter *)

Fixpoint findIndexFrom {A : Type} (p : A -> bool) (l : list A) (i : Z) : Z :=
  match l with
  | [] => -1
  | x :: rest => if p x then i else findIndexFrom p rest (i + 1)
  end.

(** [self.findIndex(p)]: the index of the first element satisfying [p],
    [-1] when there is none. *)
Definition findIndex {A : Type} (p : A -> bool) (l : list A) : Z :=
  findIndexFrom p l 0.

Fixpoint filterFrom {A : Type} (p : A -> Z -> bool) (l : list A) (i : Z)
  : list A :=
  match l with
  | [] => []
  | x :: rest =>
      if p x i then x :: filterFrom p rest (i + 1)
      else filterFrom p rest (i + 1)
  end.

(** [arr.filter((obj, index) => p(obj, index))] *)
Definition filterIndexed {A : Type} (p : A -> Z -> bool) (l : list A)
  : list A :=
  filterFrom p l 0.

(** [combined.filter((obj, index, self) =>
       index === self.findIndex((item) => item.id === obj.id))] *)
Definition dedupe (combined : list Item) : list Item :=
  filterIndexed
    (fun obj index =>
       Z.eqb index (findIndex (fun item => Z.eqb (id item) (id obj)) combined))
    combined.

(** The rule in the words of the specification: walk the list and keep an
    item when no earlier item has its identity key. *)
Fixpoint keepFirstSeen (seen : list Z) (l : list Item) : list Item :=
  match l with
  | [] => []
  | x :: rest =>
      if existsb (Z.eqb (id x)) seen then keepFirstSeen seen rest
      else x :: keepFirstSeen (id x :: seen) rest
  end.

Definition keepFirstById (l : list Item) : list Item := keepFirstSeen [] l.

(** *** The instance *)

(** Which [async] function a parked continuation belongs to. *)
Inductive Cont : Type :=
| KMounted   (* [mounted], line 333 *)
| KFilter.   (* the [filterValue] watcher, line 288 *)

Record t : Type := mk {
  edit : Field (list Item);
  (* props *)
  url : option string;
  data : option (list Item);
  label : option string;
  onDemandSearch : bool;
  (* data() *)
  options : list Item;
  isLoading : bool;
  filterValue : string;
  (* effects *)
  toasts : list Toast;
  requests : list Request;
  (* requests whose [await] has not returned yet, by their position in
     [requests], with the function waiting for them *)
  pending : list (nat * Cont)
}.

Definition setEdit (e : Field (list Item)) (s : t) : t :=
  mk e (url s) (data s) (label s) (onDemandSearch s)
     (options s) (isLoading s) (filterValue s)
     (toasts s) (requests s) (pending s).

Definition setOptions (l : list Item) (s : t) : t :=
  mk (edit s) (url s) (data s) (label s) (onDemandSearch s)
     l (isLoading s) (filterValue s)
     (toasts s) (requests s) (pending s).

Definition setIsLoading (b : bool) (s : t) : t :=
  mk (edit s) (url s) (data s) (label s) (onDemandSearch s)
     (options s) b (filterValue s)
     (toasts s) (requests s) (pending s).

Definition setFilterValue (v : string) (s : t) : t :=
  mk (edit s) (url s) (data s) (label s) (onDemandSearch s)
     (options s) (isLoading s) v
     (toasts s) (requests s) (pending s).

Definition setPending (p : list (nat * Cont)) (s : t) : t :=
  mk (edit s) (url s) (data s) (label s) (onDemandSearch s)
     (options s) (isLoading s) (filterValue s)
     (toasts s) (requests s) p.

(** [this.$refs.multiselectToasterRef.toast(...)] *)
Definition toast (x : Toast) (s : t) : t :=
  mk (edit s) (url s) (data s) (label s) (onDemandSearch s)
     (options s) (isLoading s) (filterValue s)
     (toasts s ++ [x]) (requests s) (pending s).

(** [await apiCall(...)] inside the function [k]: the request is sent and
    [k] is parked until the environment settles it. *)
Definition await (k : Cont) (r : Request) (s : t) : t :=
  mk (edit s) (url s) (data s) (label s) (onDemandSearch s)
     (options s) (isLoading s) (filterValue s)
     (toasts s) (requests s ++ [r])
     (pending s ++ [(List.length (requests s), k)]).

(** The computed property [value]: its getter returns [this.modelValue]. *)
Definition value (s : t) : option (list Item) := modelValue (edit s).

(** The items the code treats as selected: [this.value || []]. *)
Definition selected (s : t) : list Item := orEmpty (value s).

(** [data()] (lines 209-221) and the edit slice. *)
Definition create (ro ae : bool) (mv : option (list Item))
           (u : option string) (d : option (list Item))
           (lbl : option string) (ods : bool) : t :=
  mk (initField ro ae mv) u d lbl ods
     [] (negb (truthy d) && negb ods) "" [] [] [].

(** *** Methods *)

(** [removeAll()] (lines 76-82) *)
Definition removeAll (s : t) : t :=
  if readOnly (edit s) then setEdit (setTmpVal (Some []) (edit s)) s
  else setEdit (emit (Some []) (edit s)) s.

Definition toggleEdit (s : t) : t := setEdit (toggleEdit (edit s)) s.
Definition dismissEdit (s : t) : t := setEdit (dismissEdit (edit s)) s.
Definition acceptEdit (s : t) : t := setEdit (acceptEdit (edit s)) s.

(** *** The [tmpVal] watcher and [beforeUpdate] *)

(** The [$nextTick] callback of the [tmpVal] watcher (lines 268-272). *)
Definition tmpValTick (newValue : option (list Item)) (s : t) : t :=
  match newValue with
  | Some l =>
      if readOnly (edit s) && onDemandSearch s then setOptions l s else s
  | None => s
  end.

(** [beforeUpdate()] (lines 347-351) *)
Definition beforeUpdate (s : t) : t :=
  match value s with
  | Some l =>
      if negb (truthy (data s)) && isLoading s && negb (onDemandSearch s)
      then setOptions l s else s
  | None => s
  end.

(** *** The [filterValue] watcher (lines 278-312) *)

(** The handler up to its [return] or its [await].  A JavaScript string is
    truthy when it is not empty; [.length] is [String.length] (the two agree
    on the ASCII texts used here). *)
Definition filterValueChanged (_new _old : string) (s : t) : t :=
  if negb (String.eqb _old "") && (2 <=? String.length _old)%nat
     && (String.length _new <? 2)%nat
  then setOptions (selected s) s
  else if negb (String.eqb _new "") && (2 <=? String.length _new)%nat
  then await KFilter (searchRequest (url s) _new) (setIsLoading true s)
  else s.

(** The handler after the [await] returned [fetchedOptions]. *)
Definition filterResolved (fetchedOptions : list Item) (s : t) : t :=
  setIsLoading false
    match value s with
    | Some sel => setOptions (dedupe (fetchedOptions ++ sel)) s
    | None => setOptions fetchedOptions s
    end.

(** The handler after the [await] threw. *)
Definition filterRejected (s : t) : t :=
  setIsLoading false (toast (loadFailure (label s)) s).

(** [onFilter(event)] (lines 109-114), followed by the watcher when the
    assignment changed [filterValue]. *)
Definition onFilter (text : string) (s : t) : t :=
  if negb (onDemandSearch s) then s
  else if String.eqb text (filterValue s) then s
  else filterValueChanged text (filterValue s) (setFilterValue text s).

(** *** [mounted] (lines 314-346) *)

Definition mounted (s : t) : t :=
  let s1 :=
    if readOnly (edit s)
    then setEdit (setTmpVal (modelValue (edit s)) (edit s)) s
    else s in
  if onDemandSearch s1 then setIsLoading false (setOptions (selected s1) s1)
  else
    match data s1 with
    | Some d => setIsLoading false (setOptions d s1)
    | None =>
        if truthyString (url s1)
        then await KMounted (loadRequest (url s1)) (setIsLoading true s1)
        else s1
    end.

Definition mountedResolved (r : list Item) (s : t) : t :=
  setIsLoading false (setOptions r s).

Definition mountedRejected (s : t) : t :=
  setIsLoading false (toast (loadFailure (label s)) s).

(** The ticks scheduled by the two [immediate] watchers run once the
    synchronous part of [mounted] is over. *)
Definition mount (s : t) : t :=
  let s1 := mounted s in
  let s2 := setEdit (modelValueHandler selectWatch (value s1) (edit s1)) s1 in
  tmpValTick (tmpVal (edit s2)) s2.

(** *** Events *)

Inductive Event : Type :=
| Click (op : EditOp)                   (* Edit, Check and X icons *)
| RemoveAllClick                        (* footer button of the widget *)
| Pick (v : list Item)                  (* the widget's [v-model] *)
| Filter (text : string)                (* the widget's [@filter] *)
| HostUpdate (v : option (list Item))   (* the host assigns [modelValue] *)
| Resolved (i : nat) (r : list Item)    (* request [i] returned [r] *)
| Rejected (i : nat)                    (* request [i] failed *)
| Render.                               (* a re-render for another cause *)

(** The MultiSelect widget is rendered when the field is not read-only, or
    while it is edited inline. *)
Definition widgetShown (s : t) : bool :=
  negb (readOnly (edit s)) || isEditing (edit s).

(** After an assignment that may have put another array in [tmpVal]
    ([dismissEdit], the tick of the [modelValue] watcher): the tick of the
    [tmpVal] watcher, which fires when the draft holds another array than
    before.  Arrays are told apart by their content here: an array with
    other content is another array, and a commit the host has applied puts
    the draft's own array in the prop. *)
Definition afterTmpVal (old : option (list Item)) (s : t) : t :=
  if value_eq_dec (tmpVal (edit s)) old then s
  else tmpValTick (tmpVal (edit s)) s.

(** The runtime's reaction to a change of rendered state: the component
    re-renders, which runs [beforeUpdate]; the ticks come after it. *)
Definition settle (old : option (list Item)) (s : t) : t :=
  afterTmpVal old (beforeUpdate s).

(** The same where the draft has just been assigned a fresh array (the
    literal of [removeAll], the array the widget builds on a pick): the
    [tmpVal] watcher fires whatever the array holds. *)
Definition settleFresh (s : t) : t :=
  tmpValTick (tmpVal (edit s)) (beforeUpdate s).

Definition lookupPending (i : nat) (s : t) : option Cont :=
  match find (fun p => Nat.eqb i (fst p)) (pending s) with
  | Some p => Some (snd p)
  | None => None
  end.

Definition unpark (i : nat) (s : t) : t :=
  setPending (filter (fun p => negb (Nat.eqb i (fst p))) (pending s)) s.

(** One event and the runtime's reaction to it.  A click on an icon, a
    change of the draft and an assignment of the prop change what is
    rendered, so a re-render follows; an editable field's pick and
    Remove All only emit; the watcher of [filterValue] and the
    continuations change rendered state only where [beforeUpdate] does
    nothing (on-demand search, or [isLoading] false).  [HostUpdate v] is the
    host putting another array, holding [v], in the prop, so the
    [modelValue] watcher fires. *)
Definition step (s : t) (e : Event) : t :=
  match e with
  | Click op =>
      if offered op (edit s)
      then settle (tmpVal (edit s)) (setEdit (call op (edit s)) s)
      else s
  | RemoveAllClick =>
      if widgetShown s then
        if readOnly (edit s) then settleFresh (removeAll s) else removeAll s
      else s
  | Pick v =>
      if negb (readOnly (edit s)) then setEdit (emit (Some v) (edit s)) s
      else if isEditing (edit s)
      then settleFresh (setEdit (editDraft (Some v) (edit s)) s)
      else s
  | Filter text => if widgetShown s then onFilter text s else s
  | HostUpdate v =>
      settle (tmpVal (edit s))
             (setEdit (modelValueHandler selectWatch v
                         (setModelValue v (edit s))) s)
  | Resolved i r =>
      match lookupPending i s with
      | Some KMounted => mountedResolved r (unpark i s)
      | Some KFilter => filterResolved r (unpark i s)
      | None => s
      end
  | Rejected i =>
      match lookupPending i s with
      | Some KMounted => mountedRejected (unpark i s)
      | Some KFilter => filterRejected (unpark i s)
      | None => s
      end
  | Render => beforeUpdate s
  end.

Definition steps (es : list Event) (s : t) : t := fold_left step es s.

End Multiselect.

(** ** Input (src/unnamed/part_003) and Textarea (src/form/fields/Textarea.vue)

    Both components bind a string and consist of the edit slice with a
    [modelValue] watcher declared [once: true] and not [immediate]. *)

Module Input.

Definition value_eq_dec (x y : option string) : {x = y} + {x <> y}.
Proof.
  decide equality; apply string_dec.
Defined.

Definition create (ro ae : bool) (mv : option string) : Field string :=
  createField inputWatch ro ae mv.

Definition update (v : option string) (s : Field string) : Field string :=
  hostUpdate value_eq_dec inputWatch v s.

End Input.

(** ** Vocabulary of the properties *)

Definition flipMode (m : Mode) : Mode :=
  match m with
  | Display => Editing
  | Editing => Display
  end.

(** The commit notifications a sequence of calls is expected to send: one
    per [acceptEdit], carrying the draft held when the call is made. *)
Fixpoint commits {V : Type} (ops : list EditOp) (s : Field V)
  : list (Emit V) :=
  match ops with
  | [] => []
  | op :: rest =>
      match op with
      | OpAccept => [UpdateModelValue (tmpVal s)]
      | OpToggle | OpDismiss => []
      end ++ commits rest (call op s)
  end.

(** The mirrored draft is in sync with the committed value. *)
Definition mirrored {V : Type} (s : Field V) : Prop :=
  tmpVal s = modelValue s.

(** Every parked continuation waits for a request that has been sent. *)
Definition parkedSent (s : Multiselect.t) : Prop :=
  Forall (fun p => fst p < List.length (Multiselect.requests s))
         (Multiselect.pending s).

(** The merge rule of the specification: search hits first, then the
    selected items, first occurrence per identity key kept. *)
Definition mergeById (fetchResult sel : list Multiselect.Item)
  : list Multiselect.Item :=
  Multiselect.keepFirstById (fetchResult ++ sel).

(** *** Sample data *)

Definition itemA : Multiselect.Item := Multiselect.mkItem 1 "A".
Definition itemB : Multiselect.Item := Multiselect.mkItem 2 "B".
Definition itemC : Multiselect.Item := Multiselect.mkItem 3 "C".

(** An editable multiselect in on-demand-search mode, mounted with [sel]
    selected. *)
Definition searchField (sel : list Multiselect.Item) : Multiselect.t :=
  Multiselect.mount
    (Multiselect.create false false (Some sel) (Some "/api/tags") None
                        (Some "tags") true).

(** A read-only multiselect with inline editing, fed from a URL. *)
Definition remoteField (sel : list Multiselect.Item) : Multiselect.t :=
  Multiselect.mount
    (Multiselect.create true true (Some sel) (Some "/api/tags") None
                        (Some "tags") false).

(** ** Toaster (src/unnamed/part_001) *)

Module Toaster.

(** The arguments of a call of [toast], each of which may be [null]. *)
Record Call : Type := mkCall {
  callSummary : option string;
  callMessage : option string;
  callSeverity : string;
  callPrefix : option string;
  callLife : option Z
}.

(** The object handed to PrimeVue's [primeToast.add]. *)
Record Message : Type := mkMessage {
  group : string;
  severity : string;
  summary : string;
  detail : string;
  life : option Z
}.

Section Toaster.

(** The translation function [t] of vue-i18n and Vue's [capitalize] belong to
    libraries, not to the repository. *)
Variable t : string -> string.
Variable capitalize : string -> string.

(** [summary ? capitalize(summaryPrefix ? t(summaryPrefix)
                                        : '' + ' ' + t(summary)) : ""]:
    the conditional binds weaker than [+], so its condition is
    [summaryPrefix] alone. *)
Definition summaryText (summary summaryPrefix : option string) : string :=
  match summary with
  | None => ""
  | Some s =>
      if String.eqb s "" then ""
      else capitalize
             (if truthyString summaryPrefix
              then t (match summaryPrefix with Some p => p | None => "" end)
              else String.append (String.append "" " ") (t s))
  end.

(** [message ? capitalize(t(message)) : ""] *)
Definition detailText (message : option string) : string :=
  match message with
  | None => ""
  | Some m => if String.eqb m "" then "" else capitalize (t m)
  end.

(** [toast(summary, message, severity, summaryPrefix = null, life = null)]
    (lines 39-47) *)
Definition toast (c : Call) : Message :=
  mkMessage "genericToast" (callSeverity c)
            (summaryText (callSummary c) (callPrefix c))
            (detailText (callMessage c))
            (callLife c).

End Toaster.

(** The call made by the fields' [catch] blocks, as recorded in their toast
    logs. *)
Definition ofToast (x : Toast) : Call :=
  match x with
  | mkToast s m sev p l => mkCall (Some s) (Some m) sev p (Some l)
  end.

End Toaster.

(** ** LocalStorage (src/unnamed/part_000) *)

Module LocalStorage.

(** The browser's [localStorage]: string keys bound to string values, each
    key at most once. *)
Definition Storage : Type := list (string * string).

Fixpoint getItem (k : string) (st : Storage) : option string :=
  match st with
  | [] => None
  | (k', v) :: rest => if String.eqb k k' then Some v else getItem k rest
  end.

Definition removeItem (k : string) (st : Storage) : Storage :=
  filter (fun p => negb (String.eqb k (fst p))) st.

Definition setItem (k v : string) (st : Storage) : Storage :=
  (k, v) :: removeItem k st.

(** A key that is not a string is converted: [null] becomes ["null"]. *)
Definition keyOf (k : option string) : string :=
  match k with
  | Some s => s
  | None => "null"
  end.

Section LocalStorage.

(** [Obj] is the type of the persisted object; [JSON.stringify] and
    [JSON.parse] are built-ins, [parse] returning [None] where [JSON.parse]
    throws. *)
Variable Obj : Type.
Variable stringify : Obj -> string.
Variable parse : string -> option Obj.

Record t : Type := mk {
  (* props *)
  storedValue : option Obj;
  (* data() *)
  showLoadDialog : bool;
  storageKey : option string;
  (* effects *)
  emitted : list Obj;               (* payloads of [update:storedValue] *)
  toasts : list Toaster.Call;
  storage : Storage                 (* the global [localStorage] *)
}.

Definition setStoredValue (v : option Obj) (s : t) : t :=
  mk v (showLoadDialog s) (storageKey s) (emitted s) (toasts s) (storage s).

Definition setShowLoadDialog (b : bool) (s : t) : t :=
  mk (storedValue s) b (storageKey s) (emitted s) (toasts s) (storage s).

Definition setStorageKey (k : option string) (s : t) : t :=
  mk (storedValue s) (showLoadDialog s) k (emitted s) (toasts s) (storage s).

Definition setStorage (st : Storage) (s : t) : t :=
  mk (storedValue s) (showLoadDialog s) (storageKey s) (emitted s) (toasts s)
     st.

(** [this.$emit('update:storedValue', v)] *)
Definition emit (v : Obj) (s : t) : t :=
  mk (storedValue s) (showLoadDialog s) (storageKey s) (emitted s ++ [v])
     (toasts s) (storage s).

(** [this.$refs.toasterRef.toast(...)] *)
Definition toast (c : Toaster.Call) (s : t) : t :=
  mk (storedValue s) (showLoadDialog s) (storageKey s) (emitted s)
     (toasts s ++ [c]) (storage s).

Definition parseFailure : Toaster.Call :=
  Toaster.mkCall (Some "errors.storage.load") None "warn" None (Some 3000%Z).

(** [data()] (lines 59-64) on a page whose storage is [st]. *)
Definition init (v : option Obj) (st : Storage) : t :=
  mk v false None [] [] st.

(** [created()] (lines 83-86): the key is the route's full path. *)
Definition created (fullPath : string) (s : t) : t :=
  setStorageKey (Some fullPath) s.

(** [mounted()] (lines 87-91); a stored empty string is falsy. *)
Definition mounted (s : t) : t :=
  if truthyString (getItem (keyOf (storageKey s)) (storage s))
  then setShowLoadDialog true s else s.

(** The component as the page loads it. *)
Definition load (fullPath : string) (v : option Obj) (st : Storage) : t :=
  mounted (created fullPath (init v st)).

(** The handler of the [storedValue] watcher (lines 75-79). *)
Definition storedValueChanged (newValue : option Obj) (s : t) : t :=
  match newValue with
  | Some v =>
      setStorage (setItem (keyOf (storageKey s)) (stringify v) (storage s)) s
  | None => s
  end.

(** The host assigns the prop [storedValue] (or mutates it: the watcher is
    [deep]); the watcher runs. *)
Definition hostUpdate (v : option Obj) (s : t) : t :=
  storedValueChanged v (setStoredValue v s).

(** [loadStoredData()] (lines 98-119) *)
Definition loadStoredData (s : t) : t :=
  let key := keyOf (storageKey s) in
  let storedData := getItem key (storage s) in
  let s1 :=
    if truthyString storedData then
      let s2 :=
        match parse (match storedData with Some d => d | None => "" end) with
        | Some parsedData => emit parsedData s
        | None => toast parseFailure s
        end in
      setStorage (removeItem key (storage s2)) s2
    else s in
  setShowLoadDialog false s1.

(** [removeStoredData()] (lines 124-126) *)
Definition removeStoredData (s : t) : t :=
  setStorage (removeItem (keyOf (storageKey s)) (storage s)) s.

(** [rejectStoredData()] (lines 130-133) *)
Definition rejectStoredData (s : t) : t :=
  setShowLoadDialog false
    (setStorage (removeItem (keyOf (storageKey s)) (storage s)) s).

End LocalStorage.

Arguments storedValue {Obj} _.
Arguments showLoadDialog {Obj} _.
Arguments storageKey {Obj} _.
Arguments emitted {Obj} _.
Arguments toasts {Obj} _.
Arguments storage {Obj} _.
Arguments init {Obj} _ _.
Arguments created {Obj} _ _.
Arguments mounted {Obj} _.
Arguments load {Obj} _ _ _.
Arguments storedValueChanged {Obj} _ _ _.
Arguments hostUpdate {Obj} _ _ _.
Arguments loadStoredData {Obj} _ _.
Arguments removeStoredData {Obj} _.
Arguments rejectStoredData {Obj} _.

End LocalStorage.

(** ** The display text of Select (src/unnamed/part_002, lines 125-131) *)

Module SelectText.

Section SelectText.

(** [strictEq] is [===] on bound values; [optionValue] and [optionLabel]
    read the keys named by the props of the same names. *)
Variable V : Type.
Variable O : Type.
Variable strictEq : V -> V -> bool.
Variable optionValue : O -> V.
Variable optionLabel : O -> string.

Definition selectedOptionText (s : Select.t V O) : string :=
  match modelValue (Select.edit s) with
  | None => ""
  | Some v =>
      match find (fun item => strictEq (optionValue item) v)
                 (Select.options s) with
      | Some selected => optionLabel selected
      | None => ""
      end
  end.

End SelectText.

Arguments selectedOptionText {V O} _ _ _ _.

End SelectText.

(** ** The display text of Textarea (src/form/fields/Textarea.vue,
       lines 105-107) *)

Module Textarea.

Definition newline : Ascii.ascii := Ascii.ascii_of_nat 10.

(** [s.replace(/\n/g, '<br>')] *)
Fixpoint replaceNewlines (s : string) : string :=
  match s with
  | EmptyString => EmptyString
  | String c rest =>
      if Ascii.eqb c newline
      then String.append "<br>" (replaceNewlines rest)
      else String c (replaceNewlines rest)
  end.

Definition textareaAsPlainText (modelValue : option string) : string :=
  match modelValue with
  | Some s => if String.eqb s "" then "" else replaceNewlines s
  | None => ""
  end.

(** The number of line breaks of a text. *)
Fixpoint countNewlines (s : string) : nat :=
  match s with
  | EmptyString => 0
  | String c rest =>
      (if Ascii.eqb c newline then 1 else 0) + countNewlines rest
  end.

End Textarea.

(** ** The add dialog of Multiselect (Multiselect.vue, lines 73-75, 83-108)

    The fields the dialog adds to the instance, around the instance
    modelled above. *)

Module AddDialog.

(** [apiCall(url, "POST", {name: ...})] *)
Record Post : Type := mkPost {
  postUrl : option string;
  postName : string
}.

Record t : Type := mk {
  base : Multiselect.t;
  (* props *)
  addUrl : option string;
  (* data() *)
  showAddDialog : bool;
  addInputValue : string;
  remount : bool;
  showCreateDialog : bool;
  (* effects *)
  posts : list Post;
  toggled : nat      (* calls of [this.$refs.multiselect.toggle()] *)
}.

Definition setBase (b : Multiselect.t) (s : t) : t :=
  mk b (addUrl s) (showAddDialog s) (addInputValue s) (remount s)
     (showCreateDialog s) (posts s) (toggled s).

Definition setShowAddDialog (b : bool) (s : t) : t :=
  mk (base s) (addUrl s) b (addInputValue s) (remount s)
     (showCreateDialog s) (posts s) (toggled s).

Definition setAddInputValue (v : string) (s : t) : t :=
  mk (base s) (addUrl s) (showAddDialog s) v (remount s)
     (showCreateDialog s) (posts s) (toggled s).

Definition setRemount (b : bool) (s : t) : t :=
  mk (base s) (addUrl s) (showAddDialog s) (addInputValue s) b
     (showCreateDialog s) (posts s) (toggled s).

Definition setShowCreateDialog (b : bool) (s : t) : t :=
  mk (base s) (addUrl s) (showAddDialog s) (addInputValue s) (remount s)
     b (posts s) (toggled s).

Definition post (p : Post) (s : t) : t :=
  mk (base s) (addUrl s) (showAddDialog s) (addInputValue s) (remount s)
     (showCreateDialog s) (posts s ++ [p]) (toggled s).

Definition toggle (s : t) : t :=
  mk (base s) (addUrl s) (showAddDialog s) (addInputValue s) (remount s)
     (showCreateDialog s) (posts s) (S (toggled s)).

(** [data()]: [showAddDialog: false, addInputValue: '', remount: false,
    showCreateDialog: false]. *)
Definition init (b : Multiselect.t) (au : option string) : t :=
  mk b au false "" false false [] 0.

(** The report made by [createElement]'s [catch] block. *)
Definition createFailure (label : option string) : Toast :=
  mkToast "errors.messages.couldNotCreate" "errors.messages.load" "error"
          label 5000.

(** [addEntry()] *)
Definition addEntry (s : t) : t := setShowAddDialog true s.

(** The Cancel button: [() => {showAddDialog = false}]. *)
Definition cancel (s : t) : t := setShowAddDialog false s.

(** The dialog's input, bound with [v-model.trim]. *)
Definition typeName (v : string) (s : t) : t := setAddInputValue v s.

(** [this.addUrl || this.url] *)
Definition target (s : t) : option string :=
  if truthyString (addUrl s) then addUrl s else Multiselect.url (base s).

(** [createElement()] up to its [await]. *)
Definition createElement (s : t) : t :=
  post (mkPost (target s) (addInputValue s)) (setShowCreateDialog true s).

Definition catchBlock (s : t) : t :=
  setBase (Multiselect.toast (createFailure (Multiselect.label (base s)))
                             (base s)) s.

(** [createElement()] after the [await] returned.  [widget] tells whether
    [this.$refs.multiselect.toggle()] returns; where it throws (no widget
    is rendered), control passes to the [catch] block. *)
Definition createResolved (widget : bool) (s : t) : t :=
  let s1 := setRemount (negb (remount s))
              (setAddInputValue "" (setShowAddDialog false s)) in
  setShowCreateDialog false (if widget then toggle s1 else catchBlock s1).

(** [createElement()] after the [await] threw. *)
Definition createRejected (s : t) : t :=
  setShowCreateDialog false (catchBlock s).

End AddDialog.

(** ** A field bound with [v-model]

    The host assigns every payload the field emits to the prop
    [modelValue] before the next event; besides, it may assign the prop on
    its own. *)

Inductive FieldEvent (V : Type) : Type :=
| FClick (op : EditOp)       (* Edit, Check and X icons *)
| FDraft (v : option V)      (* the inline editor's [v-model="tmpVal"] *)
| FHost (v : option V).      (* an external update of [modelValue] *)
Arguments FClick {V} op.
Arguments FDraft {V} v.
Arguments FHost {V} v.

Definition vmodelStep {V : Type}
           (dec : forall x y : option V, {x = y} + {x <> y})
           (o : WatchOpts) (s : Field V) (e : FieldEvent V) : Field V :=
  match e with
  | FClick op =>
      if offered op s then
        match op with
        | OpAccept => hostUpdate dec o (tmpVal s) (acceptEdit s)
        | OpToggle | OpDismiss => call op s
        end
      else s
  | FDraft v => if readOnly s && isEditing s then editDraft v s else s
  | FHost v => hostUpdate dec o v s
  end.

Definition vmodelRun {V : Type}
           (dec : forall x y : option V, {x = y} + {x <> y})
           (o : WatchOpts) (es : list (FieldEvent V)) (s : Field V)
  : Field V :=
  fold_left (vmodelStep dec o) es s.

(** ** What an event of Multiselect is expected to emit and to send *)

(** The notifications of one event: the Check icon commits the draft; in an
    editable field the widget's [v-model] and the Remove All button commit
    directly. *)
Definition emission (s : Multiselect.t) (e : Multiselect.Event)
  : list (Emit (list Multiselect.Item)) :=
  match e with
  | Multiselect.Click OpAccept =>
      if offered OpAccept (Multiselect.edit s)
      then [UpdateModelValue (tmpVal (Multiselect.edit s))] else []
  | Multiselect.RemoveAllClick =>
      if negb (readOnly (Multiselect.edit s))
      then [UpdateModelValue (Some [])] else []
  | Multiselect.Pick v =>
      if negb (readOnly (Multiselect.edit s))
      then [UpdateModelValue (Some v)] else []
  | _ => []
  end.

(** The requests of one event: a search for a changed filter text of two or
    more characters, typed into the widget of an on-demand-search field. *)
Definition sent (s : Multiselect.t) (e : Multiselect.Event) : list Request :=
  match e with
  | Multiselect.Filter text =>
      if Multiselect.widgetShown s && Multiselect.onDemandSearch s
         && negb (String.eqb text (Multiselect.filterValue s))
         && (2 <=? String.length text)%nat
      then [searchRequest (Multiselect.url s) text] else []
  | _ => []
  end.

(** The same along a sequence of events. *)
Fixpoint emissions (es : list Multiselect.Event) (s : Multiselect.t)
  : list (Emit (list Multiselect.Item)) :=
  match es with
  | [] => []
  | e :: rest => emission s e ++ emissions rest (Multiselect.step s e)
  end.

Fixpoint allSent (es : list Multiselect.Event) (s : Multiselect.t)
  : list Request :=
  match es with
  | [] => []
  | e :: rest => sent s e ++ allSent rest (Multiselect.step s e)
  end.

(** A read-only multiselect in on-demand-search mode, with inline
    editing. *)
Definition draftSearchField (sel : list Multiselect.Item) : Multiselect.t :=
  Multiselect.mount
    (Multiselect.create true true (Some sel) (Some "/api/tags") None
                        (Some "tags") true).

(** The POST an instance would send now. *)
Definition target_post (s : AddDialog.t) : AddDialog.Post :=
  AddDialog.mkPost (AddDialog.target s) (AddDialog.addInputValue s).

(** ** Multiselect with its add dialog: events

    The field's events, and those of the dialog: the Add button of the
    widget's footer, typing the name, Cancel, the dialog's Add button (not
    reachable under the loading dialog), and the settling of the POST. *)

Inductive WidgetEvent : Type :=
| OnField (e : Multiselect.Event)
| AddClick
| TypeName (v : string)
| CancelClick
| CreateClick
| CreateDone (widget : bool)
| CreateFailed.

Definition dialogOpen (s : AddDialog.t) : bool :=
  AddDialog.showAddDialog s && negb (AddDialog.showCreateDialog s).

(** The dialog's fields are rendered, so a change of one of them is
    followed by a re-render of the component. *)
Definition rerender (s : AddDialog.t) : AddDialog.t :=
  AddDialog.setBase (Multiselect.beforeUpdate (AddDialog.base s)) s.

Definition widgetStep (s : AddDialog.t) (e : WidgetEvent) : AddDialog.t :=
  match e with
  | OnField e' =>
      AddDialog.setBase (Multiselect.step (AddDialog.base s) e') s
  | AddClick =>
      if Multiselect.widgetShown (AddDialog.base s)
      then rerender (AddDialog.addEntry s) else s
  | TypeName v =>
      if dialogOpen s then rerender (AddDialog.typeName v s) else s
  | CancelClick => if dialogOpen s then rerender (AddDialog.cancel s) else s
  | CreateClick =>
      if dialogOpen s then rerender (AddDialog.createElement s) else s
  | CreateDone widget =>
      if AddDialog.showCreateDialog s
      then rerender (AddDialog.createResolved widget s) else s
  | CreateFailed =>
      if AddDialog.showCreateDialog s
      then rerender (AddDialog.createRejected s) else s
  end.

Definition widgetSteps (es : list WidgetEvent) (s : AddDialog.t)
  : AddDialog.t :=
  fold_left widgetStep es s.

(** The requests a sequence of events is expected to send: the searches of
    the field's events, and one POST per click on the open dialog's Add
    button. *)
Fixpoint searched (es : list WidgetEvent) (s : AddDialog.t) : list Request :=
  match es with
  | [] => []
  | e :: rest =>
      match e with
      | OnField e' => sent (AddDialog.base s) e'
      | _ => []
      end ++ searched rest (widgetStep s e)
  end.

Fixpoint posted (es : list WidgetEvent) (s : AddDialog.t)
  : list AddDialog.Post :=
  match es with
  | [] => []
  | e :: rest =>
      match e with
      | CreateClick =>
          if dialogOpen s
          then [AddDialog.mkPost (AddDialog.target s)
                                 (AddDialog.addInputValue s)]
          else []
      | _ => []
      end ++ posted rest (widgetStep s e)
  end.

(** * Properties *)

(** ** The duplicate filter *)

Section Dedupe.

Import Multiselect.

Lemma findIndexFrom_range {A : Type} (p : A -> bool) (l : list A) (i : Z) :
  existsb p l = true ->
  (i <= findIndexFrom p l i < i + Z.of_nat (List.length l))%Z.
Proof.
  revert i.
  induction l as [|x rest IH]; intros i Hex; simpl in *.
  - discriminate.
  - destruct (p x).
    + lia.
    + simpl in Hex. specialize (IH (i + 1)%Z Hex). lia.
Qed.

Lemma findIndexFrom_app_hit {A : Type} (p : A -> bool) (pre l : list A)
      (i : Z) :
  existsb p pre = true ->
  findIndexFrom p (pre ++ l) i = findIndexFrom p pre i.
Proof.
  revert i.
  induction pre as [|x rest IH]; intros i Hex; simpl in *.
  - discriminate.
  - destruct (p x); [reflexivity | apply IH, Hex].
Qed.

Lemma findIndexFrom_app_miss {A : Type} (p : A -> bool) (pre l : list A)
      (i : Z) :
  existsb p pre = false ->
  findIndexFrom p (pre ++ l) i =
  findIndexFrom p l (i + Z.of_nat (List.length pre)).
Proof.
  revert i.
  induction pre as [|x rest IH]; intros i Hex; simpl in *.
  - f_equal. lia.
  - apply orb_false_elim in Hex as [Hx Hrest].
    rewrite Hx, IH by exact Hrest.
    f_equal. lia.
Qed.

Lemma seen_before (z : Z) (pre : list Item) :
  existsb (fun item => Z.eqb (id item) z) pre = true <-> In z (map id pre).
Proof.
  rewrite existsb_exists, in_map_iff.
  split; intros [x [H1 H2]]; exists x.
  - apply Z.eqb_eq in H2. split; assumption.
  - split; [assumption | apply Z.eqb_eq, H1].
Qed.

Lemma seen_mem (z : Z) (seen : list Z) :
  existsb (Z.eqb z) seen = true <-> In z seen.
Proof.
  rewrite existsb_exists.
  split.
  - intros [y [Hy Heq]]. apply Z.eqb_eq in Heq. subst. exact Hy.
  - intros Hin. exists z. split; [exact Hin | apply Z.eqb_refl].
Qed.

(** The index test of the source keeps exactly the items no earlier item
    shares its key with. *)
Lemma filterFrom_keepFirstSeen (combined l pre : list Item) (seen : list Z) :
  combined = pre ++ l ->
  (forall z, In z seen <-> In z (map id pre)) ->
  filterFrom
    (fun obj index =>
       Z.eqb index (findIndex (fun item => Z.eqb (id item) (id obj)) combined))
    l (Z.of_nat (List.length pre))
  = keepFirstSeen seen l.
Proof.
  revert pre seen.
  induction l as [|x rest IH]; intros pre seen Hc Hseen; simpl.
  - reflexivity.
  - assert (Hnext : combined = (pre ++ [x]) ++ rest)
      by (rewrite <- app_assoc; exact Hc).
    assert (Hlen : (Z.of_nat (List.length pre) + 1)%Z
                   = Z.of_nat (List.length (pre ++ [x])))
      by (rewrite length_app; simpl; lia).
    destruct (existsb (Z.eqb (id x)) seen) eqn:Hmem.
    + (* an earlier item has the key: the first index is smaller *)
      apply seen_mem, Hseen, seen_before in Hmem.
      pose proof (findIndexFrom_range _ _ 0%Z Hmem) as Hr.
      unfold findIndex. rewrite Hc, (findIndexFrom_app_hit _ _ _ _ Hmem).
      destruct (Z.eqb_spec (Z.of_nat (List.length pre))
                  (findIndexFrom (fun item => Z.eqb (id item) (id x)) pre 0))
        as [Heq|_]; [lia|].
      rewrite <- Hc, Hlen. apply IH; [exact Hnext|].
      intros z. rewrite map_app, in_app_iff, <- Hseen. simpl.
      split; [tauto|]. intros [H|[H|[]]]; [exact H|].
      subst z. apply Hseen, seen_before, Hmem.
    + (* no earlier item has the key: this is the first index *)
      assert (Hmiss : existsb (fun item => Z.eqb (id item) (id x)) pre = false).
      { destruct (existsb (fun item => Z.eqb (id item) (id x)) pre) eqn:E;
          [|reflexivity].
        apply seen_before, Hseen, seen_mem in E. congruence. }
      unfold findIndex. rewrite Hc, (findIndexFrom_app_miss _ _ _ _ Hmiss).
      simpl. rewrite Z.eqb_refl, Z.eqb_refl.
      rewrite <- Hc, Hlen. f_equal. apply IH; [exact Hnext|].
      intros z. rewrite map_app, in_app_iff, <- Hseen. simpl.
      split; [intros [H|H]; auto | intros [H|[H|[]]]; auto].
Qed.

Lemma dedupe_keepFirstById (l : list Item) : dedupe l = keepFirstById l.
Proof.
  unfold dedupe, filterIndexed, keepFirstById.
  apply (filterFrom_keepFirstSeen l l [] []); [reflexivity|].
  intros z. simpl. tauto.
Qed.

Lemma keepFirstSeen_keys (l : list Item) (seen : list Z) (z : Z) :
  In z (map id (keepFirstSeen seen l)) <-> In z (map id l) /\ ~ In z seen.
Proof.
  revert seen.
  induction l as [|x rest IH]; intros seen; simpl.
  - tauto.
  - destruct (existsb (Z.eqb (id x)) seen) eqn:Hmem.
    + apply seen_mem in Hmem. rewrite IH.
      split; [tauto|]. intros [[H|H] Hn]; [subst; contradiction | tauto].
    + assert (Hn : ~ In (id x) seen).
      { intros Hin. apply seen_mem in Hin. congruence. }
      simpl. rewrite IH. simpl.
      destruct (Z.eq_dec (id x) z) as [Heq|Hne]; [|tauto].
      subst z. split; intros _; [split|left]; auto.
Qed.

Lemma keepFirstSeen_NoDup (l : list Item) (seen : list Z) :
  NoDup (map id (keepFirstSeen seen l)).
Proof.
  revert seen.
  induction l as [|x rest IH]; intros seen; simpl.
  - constructor.
  - destruct (existsb (Z.eqb (id x)) seen).
    + apply IH.
    + simpl. constructor; [|apply IH].
      rewrite keepFirstSeen_keys. simpl. tauto.
Qed.

(** With duplicate-free search hits, the hits come first unchanged, then
    the selected items whose key no hit has. *)
Lemma keepFirstSeen_app (l1 l2 : list Item) (seen : list Z) :
  keepFirstSeen seen (l1 ++ l2) =
  keepFirstSeen seen l1 ++
  keepFirstSeen (rev (map id (keepFirstSeen seen l1)) ++ seen) l2.
Proof.
  revert seen.
  induction l1 as [|x rest IH]; intros seen; simpl.
  - reflexivity.
  - destruct (existsb (Z.eqb (id x)) seen).
    + apply IH.
    + simpl. rewrite IH, <- app_assoc. reflexivity.
Qed.

End Dedupe.

(** ** The inline-edit state machine *)

Section EditState.

Context {V : Type}.
Implicit Types (s : Field V) (op : EditOp) (ops : list EditOp).

Lemma run_app ops1 ops2 s : run (ops1 ++ ops2) s = run ops2 (run ops1 s).
Proof. unfold run. apply fold_left_app. Qed.

Lemma run_cons op ops s : run (op :: ops) s = run ops (call op s).
Proof. reflexivity. Qed.

Lemma flipMode_involutive (m : Mode) : flipMode (flipMode m) = m.
Proof. destruct m; reflexivity. Qed.

(** Each of the three methods ends in [toggleEdit], so each flips the mode. *)
Lemma mode_call op s : mode (call op s) = flipMode (mode s).
Proof.
  destruct op; unfold mode; simpl; destruct (isEditing s); reflexivity.
Qed.

Lemma mode_run ops s :
  mode (run ops s) =
  if Nat.even (List.length ops) then mode s else flipMode (mode s).
Proof.
  revert s.
  induction ops as [|op rest IH] using rev_ind; intros s.
  - reflexivity.
  - rewrite run_app, length_app, Nat.add_comm. simpl run. cbn [List.length Nat.add].
    rewrite mode_call, IH, Nat.even_succ, <- Nat.negb_even.
    destruct (Nat.even (List.length rest)); simpl;
      [reflexivity | apply flipMode_involutive].
Qed.

Lemma emitted_call op s :
  emitted (call op s) = emitted s ++ commits [op] s.
Proof.
  destruct op; simpl; rewrite ?app_nil_r; reflexivity.
Qed.

Lemma emitted_run ops s : emitted (run ops s) = emitted s ++ commits ops s.
Proof.
  revert s.
  induction ops as [|op rest IH]; intros s.
  - simpl. rewrite app_nil_r. reflexivity.
  - rewrite run_cons, IH, emitted_call. simpl commits.
    rewrite app_nil_r, <- app_assoc. reflexivity.
Qed.

Lemma clicks_app ops1 ops2 s :
  clicks (ops1 ++ ops2) s <-> clicks ops1 s /\ clicks ops2 (run ops1 s).
Proof.
  revert s.
  induction ops1 as [|op rest IH]; intros s; simpl.
  - tauto.
  - rewrite IH. fold (run rest (call op s)). tauto.
Qed.

Lemma offered_accept_editing s :
  offered OpAccept s = true -> isEditing s = true.
Proof.
  unfold offered. intros H.
  apply andb_true_iff in H as [_ H]. exact H.
Qed.

Lemma acceptEdit_from_Editing s :
  mode s = Editing -> mode (acceptEdit s) = Display.
Proof.
  intros H. change (acceptEdit s) with (call OpAccept s).
  rewrite mode_call, H. reflexivity.
Qed.

(** What keeps the mirrored draft in sync. *)
Lemma dismissEdit_mirrored s : mirrored (dismissEdit s).
Proof. reflexivity. Qed.

Lemma createField_immediate_mirrored (ae : bool) (mv : option V) :
  mirrored (createField selectWatch true ae mv).
Proof. reflexivity. Qed.

Lemma hostUpdate_every_time
      (dec : forall x y : option V, {x = y} + {x <> y})
      (v : option V) s :
  readOnly s = true -> watching s = true -> v <> modelValue s ->
  mirrored (hostUpdate dec selectWatch v s) /\
  modelValue (hostUpdate dec selectWatch v s) = v /\
  watching (hostUpdate dec selectWatch v s) = true.
Proof.
  intros Hro Hw Hne. unfold hostUpdate, mirrored.
  destruct (dec v (modelValue s)) as [Heq|_]; [contradiction|].
  unfold modelValueHandler, modelValueTick. simpl.
  rewrite Hw, Hro. simpl. auto.
Qed.

Lemma hostUpdate_once_first
      (dec : forall x y : option V, {x = y} + {x <> y})
      (v : option V) s :
  readOnly s = true -> watching s = true -> v <> modelValue s ->
  mirrored (hostUpdate dec inputWatch v s) /\
  watching (hostUpdate dec inputWatch v s) = false.
Proof.
  intros Hro Hw Hne. unfold hostUpdate, mirrored.
  destruct (dec v (modelValue s)) as [Heq|_]; [contradiction|].
  unfold modelValueHandler, modelValueTick. simpl.
  rewrite Hw, Hro. simpl. auto.
Qed.

Lemma hostUpdate_once_later
      (dec : forall x y : option V, {x = y} + {x <> y})
      (v : option V) s :
  watching s = false ->
  tmpVal (hostUpdate dec inputWatch v s) = tmpVal s /\
  modelValue (hostUpdate dec inputWatch v s) = v.
Proof.
  intros Hw. unfold hostUpdate.
  destruct (dec v (modelValue s)) as [Heq|_]; [auto|].
  unfold modelValueHandler. simpl. rewrite Hw. simpl. auto.
Qed.

End EditState.

(** ** Option loading in Multiselect *)

Section OptionSource.

Import Multiselect.
Implicit Types (s : t) (i j : nat) (text : string).

Lemma find_filter_keep {A : Type} (f g : A -> bool) (l : list A) :
  (forall x, f x = true -> g x = true) ->
  find f (filter g l) = find f l.
Proof.
  intros Hfg.
  induction l as [|x rest IH]; simpl.
  - reflexivity.
  - destruct (f x) eqn:Hf.
    + rewrite (Hfg x Hf). simpl. rewrite Hf. reflexivity.
    + destruct (g x); simpl; rewrite ?Hf; exact IH.
Qed.

Lemma lookupPending_unpark_other i j s :
  i <> j -> lookupPending i (unpark j s) = lookupPending i s.
Proof.
  intros Hne. unfold lookupPending, unpark. simpl.
  rewrite find_filter_keep; [reflexivity|].
  intros [k c] Hk. simpl in *.
  apply Nat.eqb_eq in Hk. subst k.
  apply negb_true_iff, Nat.eqb_neq. auto.
Qed.

Lemma step_Resolved_filter i (r : list Item) s :
  lookupPending i s = Some KFilter ->
  step s (Resolved i r) = filterResolved r (unpark i s).
Proof. intros H. simpl. rewrite H. reflexivity. Qed.

Lemma step_Rejected_filter i s :
  lookupPending i s = Some KFilter ->
  step s (Rejected i) = filterRejected (unpark i s).
Proof. intros H. simpl. rewrite H. reflexivity. Qed.

(** What the success continuation leaves in [options]. *)
Lemma options_filterResolved (r : list Item) s :
  options (filterResolved r s) =
  match value s with
  | Some sel => mergeById r sel
  | None => r
  end.
Proof.
  unfold filterResolved, mergeById.
  destruct (value s); simpl; [apply dedupe_keepFirstById | reflexivity].
Qed.

Lemma length_ge_2_nonempty text :
  2 <= String.length text -> String.eqb text "" = false.
Proof.
  destruct text; simpl; [lia | reflexivity].
Qed.

Lemma length_differs text1 text2 :
  String.length text1 <> String.length text2 ->
  String.eqb text1 text2 = false.
Proof.
  intros H. apply String.eqb_neq. intros Heq. subst. auto.
Qed.

Lemma find_app_fresh (n : nat) (k : Cont) (l : list (nat * Cont)) :
  Forall (fun p => fst p < n) l ->
  find (fun p => Nat.eqb n (fst p)) (l ++ [(n, k)]) = Some (n, k).
Proof.
  induction 1 as [|[m c] rest Hm _ IH]; simpl in *.
  - rewrite Nat.eqb_refl. reflexivity.
  - destruct (Nat.eqb_spec n m) as [Heq|_]; [lia | exact IH].
Qed.

(** Typing a text of two or more characters sends a search request and
    parks the watcher on it. *)
Lemma onFilter_parks_search text s :
  parkedSent s -> onDemandSearch s = true ->
  2 <= String.length text -> text <> filterValue s ->
  lookupPending (List.length (requests s)) (onFilter text s) = Some KFilter /\
  requests (onFilter text s) = requests s ++ [searchRequest (url s) text] /\
  isLoading (onFilter text s) = true /\
  options (onFilter text s) = options s.
Proof.
  intros Hwf Hods Hlen Hne. unfold onFilter.
  rewrite Hods. simpl.
  apply String.eqb_neq in Hne. rewrite Hne.
  unfold filterValueChanged.
  replace (String.length text <? 2)%nat with false
    by (symmetry; apply Nat.ltb_ge; exact Hlen).
  rewrite andb_false_r, (length_ge_2_nonempty _ Hlen).
  replace (2 <=? String.length text)%nat with true
    by (symmetry; apply Nat.leb_le; exact Hlen).
  simpl. unfold lookupPending. simpl.
  rewrite (find_app_fresh _ _ _ Hwf). auto.
Qed.

(** The invariant [parkedSent] holds on every run of the component. *)
Lemma parkedSent_await (k : Cont) (r : Request) s :
  parkedSent s -> parkedSent (await k r s).
Proof.
  unfold parkedSent. simpl. intros H.
  rewrite length_app. simpl.
  apply Forall_app. split.
  - eapply Forall_impl; [|exact H]. simpl. intros p Hp. lia.
  - constructor; [simpl; lia | constructor].
Qed.

Lemma parkedSent_same (s s' : t) :
  requests s' = requests s -> pending s' = pending s ->
  parkedSent s -> parkedSent s'.
Proof.
  unfold parkedSent. intros -> ->. auto.
Qed.

Lemma parkedSent_unpark i s : parkedSent s -> parkedSent (unpark i s).
Proof.
  unfold parkedSent, unpark. simpl. intros H.
  apply Forall_forall. intros p Hp.
  apply filter_In in Hp as [Hp _].
  rewrite Forall_forall in H. auto.
Qed.

Lemma parkedSent_filterValueChanged (_new _old : string) s :
  parkedSent s -> parkedSent (filterValueChanged _new _old s).
Proof.
  intros H. unfold filterValueChanged.
  destruct (_ && _ && _); [exact H|].
  destruct (_ && _); [|exact H].
  apply parkedSent_await. exact H.
Qed.

(** The runtime's reaction to an event assigns [options] only. *)
Lemma afterTmpVal_options_only (old : option (list Item)) s :
  exists l, afterTmpVal old s = setOptions l s.
Proof.
  unfold afterTmpVal, tmpValTick.
  destruct (value_eq_dec _ _); [exists (options s); destruct s; reflexivity|].
  destruct (tmpVal (edit s)) as [l|];
    [|exists (options s); destruct s; reflexivity].
  destruct (_ && _); [exists l | exists (options s); destruct s]; reflexivity.
Qed.

Lemma beforeUpdate_options_only s :
  exists l, beforeUpdate s = setOptions l s.
Proof.
  unfold beforeUpdate.
  destruct (value s) as [l|]; [|exists (options s); destruct s; reflexivity].
  destruct (_ && _ && _);
    [exists l | exists (options s); destruct s]; reflexivity.
Qed.

Lemma settle_options_only (old : option (list Item)) s :
  exists l, settle old s = setOptions l s.
Proof.
  unfold settle.
  destruct (beforeUpdate_options_only s) as [l1 ->].
  destruct (afterTmpVal_options_only old (setOptions l1 s)) as [l2 ->].
  exists l2. reflexivity.
Qed.

Lemma settleFresh_options_only s :
  exists l, settleFresh s = setOptions l s.
Proof.
  unfold settleFresh, tmpValTick.
  destruct (beforeUpdate_options_only s) as [l1 ->]. simpl.
  destruct (tmpVal (edit s)) as [l|]; [|exists l1; reflexivity].
  destruct (_ && _); [exists l | exists l1]; reflexivity.
Qed.

Lemma parkedSent_step s (e : Event) : parkedSent s -> parkedSent (step s e).
Proof.
  intros H. destruct e; cbn [step].
  - destruct (offered op (edit s)); [|exact H].
    destruct (settle_options_only (tmpVal (edit s))
                                  (setEdit (call op (edit s)) s)) as [l ->].
    exact H.
  - destruct (widgetShown s); [|exact H].
    unfold removeAll. destruct (readOnly (edit s)); [|exact H].
    destruct (settleFresh_options_only
                (setEdit (setTmpVal (Some []) (edit s)) s)) as [l ->].
    exact H.
  - destruct (negb (readOnly (edit s))); [exact H|].
    destruct (isEditing (edit s)); [|exact H].
    destruct (settleFresh_options_only
                (setEdit (editDraft (Some v) (edit s)) s)) as [l ->].
    exact H.
  - destruct (widgetShown s); [|exact H]. unfold onFilter.
    destruct (negb (onDemandSearch s)); [exact H|].
    destruct (String.eqb text (filterValue s)); [exact H|].
    apply parkedSent_filterValueChanged. exact H.
  - destruct (settle_options_only (tmpVal (edit s))
                (setEdit (modelValueHandler selectWatch v
                            (setModelValue v (edit s))) s)) as [l ->].
    exact H.
  - destruct (lookupPending i s) as [[|]|]; [| |exact H].
    + apply (parkedSent_unpark i) in H. exact H.
    + apply (parkedSent_unpark i) in H. unfold filterResolved.
      destruct (value (unpark i s)); exact H.
  - destruct (lookupPending i s) as [[|]|]; [| |exact H];
      apply (parkedSent_unpark i) in H; exact H.
  - unfold beforeUpdate. destruct (value s); [|exact H].
    destruct (_ && _ && _); exact H.
Qed.

Lemma parkedSent_steps (es : list Event) s :
  parkedSent s -> parkedSent (steps es s).
Proof.
  revert s. unfold steps.
  induction es as [|e rest IH]; intros s H; simpl.
  - exact H.
  - apply IH, parkedSent_step, H.
Qed.

Lemma parkedSent_mount (ro ae : bool) (mv : option (list Item))
      (u : option string) (d : option (list Item)) (lbl : option string)
      (ods : bool) :
  parkedSent (mount (create ro ae mv u d lbl ods)).
Proof.
  unfold parkedSent.
  destruct ro, mv, d, ods, (truthyString u) eqn:Hu;
    unfold mount, mounted, create; simpl; rewrite ?Hu; simpl;
    repeat constructor.
Qed.

End OptionSource.

(** ** Claims on the inline-edit state machine *)

(** C1.  [dismissEdit] sends no [update:modelValue] notification, and
    [acceptEdit] sends exactly one, whose payload is the draft [tmpVal] held
    when it is called.  Hence over any sequence of calls the emit log grows
    by exactly one commit per [acceptEdit].  The first three facts are about
    the methods of Input, Textarea and Select and of the edit slice of
    Multiselect; the last two are about Multiselect's instance. *)
Theorem accept_commits_draft_dismiss_silent
        (V : Type) (s : Field V) (ops : list EditOp) (m : Multiselect.t) :
  emitted (dismissEdit s) = emitted s /\
  emitted (acceptEdit s) = emitted s ++ [UpdateModelValue (tmpVal s)] /\
  emitted (run ops s) = emitted s ++ commits ops s /\
  emitted (Multiselect.edit (Multiselect.dismissEdit m))
  = emitted (Multiselect.edit m) /\
  emitted (Multiselect.edit (Multiselect.acceptEdit m))
  = emitted (Multiselect.edit m)
    ++ [UpdateModelValue (tmpVal (Multiselect.edit m))].
Proof.
  repeat split; try reflexivity.
  apply emitted_run.
Qed.

(** C3, as stated, fails: [acceptEdit] ends in [toggleEdit], so called on a
    field in Display mode (here: as the first call on a fresh Input) it
    leaves the field in Editing mode. *)
Lemma acceptEdit_in_Display_enters_Editing :
  mode (Input.create true true (Some "a")) = Display /\
  mode (run [OpAccept] (Input.create true true (Some "a"))) <> Display.
Proof.
  split; [reflexivity | discriminate].
Qed.

(** C3, amended.  A field starts in Display mode; each call of
    [toggleEdit], [acceptEdit] or [dismissEdit] flips the mode, so after any
    sequence of calls the mode is decided by the parity of their number;
    [acceptEdit] called in Editing mode leads to Display; and the template
    offers [acceptEdit] in Editing mode only, so on every click sequence
    each [acceptEdit] leads to Display. *)
Theorem edit_mode_alternates
        (V : Type) (s : Field V) (op : EditOp) (ops before after : list EditOp)
        (ro ae : bool) (mv : option V) :
  mode (initField ro ae mv) = Display /\
  mode (call op s) = flipMode (mode s) /\
  mode (run ops s) =
    (if Nat.even (List.length ops) then mode s else flipMode (mode s)) /\
  (mode s = Editing -> mode (acceptEdit s) = Display) /\
  (clicks (before ++ OpAccept :: after) s ->
   mode (run (before ++ [OpAccept]) s) = Display).
Proof.
  split; [reflexivity|].
  split; [apply mode_call|].
  split; [apply mode_run|].
  split; [apply acceptEdit_from_Editing|].
  intros Hclicks.
  apply clicks_app in Hclicks as [_ [Hoff _]].
  rewrite run_app. simpl run.
  apply acceptEdit_from_Editing. unfold mode.
  rewrite (offered_accept_editing _ Hoff). reflexivity.
Qed.

Lemma edit_mode_alternates_witness :
  mode (toggleEdit (Input.create true true (Some "a"))) = Editing /\
  mode (acceptEdit (toggleEdit (Input.create true true (Some "a")))) = Display /\
  clicks ([OpToggle; OpDismiss; OpToggle] ++ OpAccept :: [OpToggle])
         (Input.create true true (Some "a")) /\
  mode (run ([OpToggle; OpDismiss; OpToggle] ++ [OpAccept])
            (Input.create true true (Some "a"))) = Display.
Proof.
  pose proof (edit_mode_alternates
                string (toggleEdit (Input.create true true (Some "a")))
                OpAccept [] [] [] true true None)
    as [_ [_ [_ [Haccept _]]]].
  pose proof (edit_mode_alternates
                string (Input.create true true (Some "a"))
                OpAccept [] [OpToggle; OpDismiss; OpToggle] [OpToggle]
                true true None)
    as [_ [_ [_ [_ Hclicks]]]].
  assert (Hc : clicks ([OpToggle; OpDismiss; OpToggle] ++ OpAccept :: [OpToggle])
                      (Input.create true true (Some "a")))
    by (simpl; repeat split; reflexivity).
  split; [reflexivity|].
  split; [apply Haccept; reflexivity|].
  split; [exact Hc | apply Hclicks, Hc].
Defined.

(** C8 fails in Input and Textarea, whose watcher is declared
    [once: true]: of two external updates received in Display mode only the
    first refreshes the draft, and the next begin-edit starts from the older
    value. *)
Theorem input_second_update_leaves_draft_stale :
  readOnly (Input.update (Some "c")
              (Input.update (Some "b") (Input.create true true (Some "a"))))
  = true /\
  mode (Input.update (Some "c")
          (Input.update (Some "b") (Input.create true true (Some "a"))))
  = Display /\
  tmpVal (Input.update (Some "b") (Input.create true true (Some "a")))
  = Some "b" /\
  modelValue (Input.update (Some "c")
                (Input.update (Some "b") (Input.create true true (Some "a"))))
  = Some "c" /\
  tmpVal (toggleEdit
            (Input.update (Some "c")
               (Input.update (Some "b") (Input.create true true (Some "a")))))
  = Some "b".
Proof.
  repeat split; reflexivity.
Qed.

(** ** Claims on Multiselect's methods and option loading *)

Section MultiselectClaims.

Import Multiselect.

(** C10.  In a read-only Multiselect [removeAll] sets the draft [tmpVal] to
    the empty list and nothing else: no notification is emitted and the
    committed value stays.  Otherwise it emits exactly one
    [update:modelValue] carrying the empty list and leaves [tmpVal] alone. *)
Theorem removeAll_clears_draft_or_commits_empty (m : t) :
  (readOnly (edit m) = true ->
   removeAll m = setEdit (setTmpVal (Some []) (edit m)) m /\
   tmpVal (edit (removeAll m)) = Some [] /\
   emitted (edit (removeAll m)) = emitted (edit m) /\
   modelValue (edit (removeAll m)) = modelValue (edit m)) /\
  (readOnly (edit m) = false ->
   emitted (edit (removeAll m))
   = emitted (edit m) ++ [UpdateModelValue (Some [])] /\
   tmpVal (edit (removeAll m)) = tmpVal (edit m) /\
   modelValue (edit (removeAll m)) = modelValue (edit m)).
Proof.
  unfold removeAll.
  split; intros Hro; rewrite Hro; simpl; auto.
Qed.

Lemma removeAll_clears_draft_or_commits_empty_witness :
  (readOnly (edit (remoteField [itemA])) = true /\
   tmpVal (edit (removeAll (remoteField [itemA]))) = Some [] /\
   emitted (edit (removeAll (remoteField [itemA]))) = []) /\
  (readOnly (edit (searchField [itemA])) = false /\
   emitted (edit (removeAll (searchField [itemA])))
   = [UpdateModelValue (Some [])]).
Proof.
  destruct (removeAll_clears_draft_or_commits_empty (remoteField [itemA]))
    as [Hro _].
  destruct (removeAll_clears_draft_or_commits_empty (searchField [itemA]))
    as [_ Hrw].
  destruct (Hro eq_refl) as [_ [Htmp [Hemit _]]].
  destruct (Hrw eq_refl) as [Hcommit _].
  split.
  - split; [reflexivity|]. split; [exact Htmp | exact Hemit].
  - split; [reflexivity | exact Hcommit].
Defined.

(** C2.  In on-demand-search mode, typing a text of two or more characters
    sends a search request for that text and parks the watcher on it.  When
    the request returns [fetchResult] while a selection [sel] exists, the
    options become the search hits followed by the selected items with the
    first occurrence per [id] kept: no [id] occurs twice, and every
    selected item, also one whose [id] is among the hits, occurs exactly
    once. *)
Theorem search_hits_merged_with_selection
        (s : t) (text : string) (es : list Event)
        (fetchResult sel : list Item) :
  parkedSent s -> onDemandSearch s = true ->
  2 <= String.length text -> text <> filterValue s ->
  lookupPending (List.length (requests s)) (steps es (onFilter text s))
  = Some KFilter ->
  value (steps es (onFilter text s)) = Some sel ->
  requests (onFilter text s) = requests s ++ [searchRequest (url s) text] /\
  lookupPending (List.length (requests s)) (onFilter text s) = Some KFilter /\
  options (step (steps es (onFilter text s))
                (Resolved (List.length (requests s)) fetchResult))
  = mergeById fetchResult sel /\
  NoDup (map id (options (step (steps es (onFilter text s))
                               (Resolved (List.length (requests s))
                                         fetchResult)))) /\
  (forall x, In x (fetchResult ++ sel) ->
     count_occ Z.eq_dec
       (map id (options (step (steps es (onFilter text s))
                              (Resolved (List.length (requests s))
                                        fetchResult))))
       (id x) = 1) /\
  isLoading (step (steps es (onFilter text s))
                  (Resolved (List.length (requests s)) fetchResult)) = false.
Proof.
  intros Hwf Hods Hlen Hne Hpend Hsel.
  destruct (onFilter_parks_search text s Hwf Hods Hlen Hne)
    as [Hpark [Hreq _]].
  split; [exact Hreq|]. split; [exact Hpark|].
  rewrite (step_Resolved_filter _ _ _ Hpend).
  assert (Hopt : options (filterResolved fetchResult
                            (unpark (List.length (requests s))
                                    (steps es (onFilter text s))))
                 = mergeById fetchResult sel).
  { rewrite options_filterResolved.
    change (value (unpark (List.length (requests s))
                          (steps es (onFilter text s))))
      with (value (steps es (onFilter text s))).
    rewrite Hsel. reflexivity. }
  rewrite Hopt. unfold mergeById, keepFirstById.
  split; [reflexivity|].
  split; [apply keepFirstSeen_NoDup|].
  split.
  - intros x Hx.
    apply NoDup_count_occ'; [apply keepFirstSeen_NoDup|].
    apply keepFirstSeen_keys. split; [apply in_map, Hx | intros []].
  - unfold filterResolved. destruct (value _); reflexivity.
Qed.

Lemma search_hits_merged_with_selection_witness :
  parkedSent (searchField [itemA]) /\
  options (step (steps [] (onFilter "xy" (searchField [itemA])))
                (Resolved 0 [itemB; itemA]))
  = [itemB; itemA].
Proof.
  split; [apply parkedSent_mount|].
  refine (proj1 (proj2 (proj2
    (search_hits_merged_with_selection
       (searchField [itemA]) "xy" [] [itemB; itemA] [itemA]
       (parkedSent_mount _ _ _ _ _ _ _) eq_refl _ _ eq_refl eq_refl)))).
  - simpl. lia.
  - discriminate.
Defined.

(** C5.  In on-demand-search mode, when the filter text goes from two or
    more characters to fewer than two, the options become exactly the
    selected items ([this.value || []]) and no request is sent. *)
Theorem short_filter_resets_options (s : t) (text : string) :
  onDemandSearch s = true ->
  2 <= String.length (filterValue s) -> String.length text < 2 ->
  options (onFilter text s) = selected s /\
  filterValue (onFilter text s) = text /\
  requests (onFilter text s) = requests s /\
  pending (onFilter text s) = pending s /\
  isLoading (onFilter text s) = isLoading s /\
  (widgetShown s = true -> step s (Filter text) = onFilter text s).
Proof.
  intros Hods Hold Hnew.
  assert (Hrun : onFilter text s
                 = setOptions (selected s) (setFilterValue text s)).
  { unfold onFilter. rewrite Hods. simpl.
    rewrite length_differs by lia.
    unfold filterValueChanged.
    rewrite (length_ge_2_nonempty _ Hold).
    replace (2 <=? String.length (filterValue s))%nat with true
      by (symmetry; apply Nat.leb_le; exact Hold).
    replace (String.length text <? 2)%nat with true
      by (symmetry; apply Nat.ltb_lt; exact Hnew).
    reflexivity. }
  rewrite Hrun. repeat split.
  intros Hshown. simpl. rewrite Hshown. exact Hrun.
Qed.

Lemma short_filter_resets_options_witness :
  options (steps [Filter "xy"; Resolved 0 [itemB; itemA]]
                 (searchField [itemA])) = [itemB; itemA] /\
  options (onFilter "x" (steps [Filter "xy"; Resolved 0 [itemB; itemA]]
                               (searchField [itemA]))) = [itemA] /\
  requests (onFilter "x" (steps [Filter "xy"; Resolved 0 [itemB; itemA]]
                                (searchField [itemA])))
  = [searchRequest (Some "/api/tags") "xy"].
Proof.
  split; [reflexivity|].
  assert (H2 : 2 <= String.length "xy") by (simpl; lia).
  assert (H1 : String.length "x" < 2) by (simpl; lia).
  destruct (short_filter_resets_options
              (steps [Filter "xy"; Resolved 0 [itemB; itemA]]
                     (searchField [itemA]))
              "x" eq_refl H2 H1)
    as [Hopt [_ [Hreq _]]].
  split; [exact Hopt | exact Hreq].
Defined.

End MultiselectClaims.

(** ** Claims on failed and overtaken fetches *)

Section FetchOutcomes.

Import Multiselect.

Lemma find_filter_drop {A : Type} (f : A -> bool) (l : list A) :
  find f (filter (fun x => negb (f x)) l) = None.
Proof.
  induction l as [|x rest IH]; simpl.
  - reflexivity.
  - destruct (f x) eqn:Hf; simpl; rewrite ?Hf; exact IH.
Qed.

Lemma lookupPending_unpark_same (i : nat) (s : t) :
  lookupPending i (unpark i s) = None.
Proof.
  unfold lookupPending, unpark. simpl.
  rewrite (find_filter_drop (fun p => Nat.eqb i (fst p))). reflexivity.
Qed.

(** The success continuation touches [options] and [isLoading] only. *)
Lemma value_filterResolved (r : list Item) (s : t) :
  value (filterResolved r s) = value s.
Proof.
  unfold filterResolved. destruct (value s) eqn:Hv; exact Hv.
Qed.

Lemma lookupPending_filterResolved (i : nat) (r : list Item) (s : t) :
  lookupPending i (filterResolved r s) = lookupPending i s.
Proof.
  unfold filterResolved. destruct (value s); reflexivity.
Qed.

(** The failure paths do not touch [options]. *)
Lemma options_filterRejected (s : t) : options (filterRejected s) = options s.
Proof. reflexivity. Qed.

Lemma options_mountedRejected (s : t) :
  options (mountedRejected s) = options s.
Proof. reflexivity. Qed.

(** C6, as stated, fails.  A field mounted with item A selected, whose host
    then selects item C instead, shows the option A; after a failed search
    it still shows A, which is neither the selection C nor the old options
    merged with the selection. *)
Lemma failed_search_does_not_merge_selection :
  lookupPending 0 (steps [HostUpdate (Some [itemC]); Filter "xy"]
                         (searchField [itemA])) = Some KFilter /\
  selected (steps [HostUpdate (Some [itemC]); Filter "xy"; Rejected 0]
                  (searchField [itemA])) = [itemC] /\
  options (steps [HostUpdate (Some [itemC]); Filter "xy"; Rejected 0]
                 (searchField [itemA])) = [itemA] /\
  options (steps [HostUpdate (Some [itemC]); Filter "xy"; Rejected 0]
                 (searchField [itemA]))
  <> mergeById [] [itemC] /\
  options (steps [HostUpdate (Some [itemC]); Filter "xy"; Rejected 0]
                 (searchField [itemA]))
  <> mergeById ([] ++ [itemA]) [itemC].
Proof.
  repeat split; try reflexivity; vm_compute; discriminate.
Qed.

(** C6, amended.  In on-demand-search mode, when the request sent for a
    filter text of two or more characters fails, [isLoading] becomes false,
    exactly one load failure is reported, no request is sent again, and the
    options stay exactly as they were before the failure. *)
Theorem failed_search_leaves_options
        (s : t) (text : string) (es : list Event) :
  parkedSent s -> onDemandSearch s = true ->
  2 <= String.length text -> text <> filterValue s ->
  lookupPending (List.length (requests s)) (steps es (onFilter text s))
  = Some KFilter ->
  lookupPending (List.length (requests s)) (onFilter text s) = Some KFilter /\
  isLoading (step (steps es (onFilter text s))
                  (Rejected (List.length (requests s)))) = false /\
  toasts (step (steps es (onFilter text s))
               (Rejected (List.length (requests s))))
  = toasts (steps es (onFilter text s))
    ++ [loadFailure (label (steps es (onFilter text s)))] /\
  options (step (steps es (onFilter text s))
                (Rejected (List.length (requests s))))
  = options (steps es (onFilter text s)) /\
  requests (step (steps es (onFilter text s))
                 (Rejected (List.length (requests s))))
  = requests (steps es (onFilter text s)) /\
  lookupPending (List.length (requests s))
                (step (steps es (onFilter text s))
                      (Rejected (List.length (requests s)))) = None.
Proof.
  intros Hwf Hods Hlen Hne Hpend.
  destruct (onFilter_parks_search text s Hwf Hods Hlen Hne) as [Hpark _].
  split; [exact Hpark|].
  rewrite (step_Rejected_filter _ _ Hpend).
  repeat split.
  apply (lookupPending_unpark_same (List.length (requests s))).
Qed.

Lemma failed_search_leaves_options_witness :
  options (steps [Filter "xy"; Resolved 0 [itemB; itemA]]
                 (searchField [itemA])) = [itemB; itemA] /\
  options (step (steps [] (onFilter "xyz"
                   (steps [Filter "xy"; Resolved 0 [itemB; itemA]]
                          (searchField [itemA]))))
                (Rejected 1))
  = [itemB; itemA].
Proof.
  split; [reflexivity|].
  assert (Hlen : 2 <= String.length "xyz") by (simpl; lia).
  assert (Hne : "xyz" <> filterValue
                  (steps [Filter "xy"; Resolved 0 [itemB; itemA]]
                         (searchField [itemA]))) by discriminate.
  exact (proj1 (proj2 (proj2 (proj2
    (failed_search_leaves_options
       (steps [Filter "xy"; Resolved 0 [itemB; itemA]] (searchField [itemA]))
       "xyz" []
       (parkedSent_steps _ _ (parkedSent_mount _ _ _ _ _ _ _))
       eq_refl Hlen Hne eq_refl))))).
Defined.

(** C9, as stated, fails.  The response to the request for "ab" (request 0)
    arrives after the response to the request for "cd" (request 1) and
    replaces the options computed from it. *)
Lemma stale_response_overwrites_options :
  map search (requests (steps [Filter "ab"; Filter "cd"] (searchField [])))
  = [Some "ab"; Some "cd"] /\
  options (steps [Filter "ab"; Filter "cd"; Resolved 1 [itemB]]
                 (searchField [])) = mergeById [itemB] [] /\
  options (steps [Filter "ab"; Filter "cd"; Resolved 1 [itemB];
                  Resolved 0 [itemA]] (searchField [])) = [itemA] /\
  options (steps [Filter "ab"; Filter "cd"; Resolved 1 [itemB];
                  Resolved 0 [itemA]] (searchField []))
  <> mergeById [itemB]
       (selected (steps [Filter "ab"; Filter "cd"; Resolved 1 [itemB];
                         Resolved 0 [itemA]] (searchField []))).
Proof.
  repeat split; try reflexivity; vm_compute; discriminate.
Qed.

(** C9, amended.  Responses are applied in the order they arrive, without
    regard to the filter text they were requested for: of two outstanding
    search requests, the one answered last decides the options, also when
    it is the older one. *)
Theorem last_response_decides_options
        (s : t) (older newer : nat) (rOlder rNewer : list Item) :
  older < newer ->
  lookupPending older s = Some KFilter ->
  lookupPending newer s = Some KFilter ->
  options (steps [Resolved newer rNewer; Resolved older rOlder] s)
  = match value s with
    | Some sel => mergeById rOlder sel
    | None => rOlder
    end /\
  options (steps [Resolved older rOlder; Resolved newer rNewer] s)
  = match value s with
    | Some sel => mergeById rNewer sel
    | None => rNewer
    end.
Proof.
  intros Hlt Hold Hnew.
  assert (Hne1 : older <> newer) by lia.
  assert (Hne2 : newer <> older) by lia.
  unfold steps. cbn [fold_left]. split.
  - rewrite (step_Resolved_filter _ rNewer _ Hnew).
    rewrite step_Resolved_filter.
    + rewrite options_filterResolved.
      change (value (unpark older (filterResolved rNewer (unpark newer s))))
        with (value (filterResolved rNewer (unpark newer s))).
      rewrite value_filterResolved. reflexivity.
    + rewrite lookupPending_filterResolved, lookupPending_unpark_other;
        assumption.
  - rewrite (step_Resolved_filter _ rOlder _ Hold).
    rewrite step_Resolved_filter.
    + rewrite options_filterResolved.
      change (value (unpark newer (filterResolved rOlder (unpark older s))))
        with (value (filterResolved rOlder (unpark older s))).
      rewrite value_filterResolved. reflexivity.
    + rewrite lookupPending_filterResolved, lookupPending_unpark_other;
        assumption.
Qed.

Lemma last_response_decides_options_witness :
  options (steps [Resolved 1 [itemB]; Resolved 0 [itemA]]
                 (steps [Filter "ab"; Filter "cd"] (searchField [])))
  = mergeById [itemA] [].
Proof.
  assert (Hlt : 0 < 1) by lia.
  exact (proj1 (last_response_decides_options
                  (steps [Filter "ab"; Filter "cd"] (searchField []))
                  0 1 [itemA] [itemB] Hlt eq_refl eq_refl)).
Defined.

End FetchOutcomes.

(** * Further properties of the components *)

(** ** Multiselect: what its events can and cannot do *)

Section MultiselectEvents.

Import Multiselect.

Lemma edit_afterTmpVal (old : option (list Item)) (s : t) :
  edit (afterTmpVal old s) = edit s.
Proof.
  destruct (afterTmpVal_options_only old s) as [l ->]. reflexivity.
Qed.

Lemma edit_settle (old : option (list Item)) (s : t) :
  edit (settle old s) = edit s.
Proof.
  destruct (settle_options_only old s) as [l ->]. reflexivity.
Qed.

Lemma edit_settleFresh (s : t) : edit (settleFresh s) = edit s.
Proof.
  destruct (settleFresh_options_only s) as [l ->]. reflexivity.
Qed.

Lemma requests_settle (old : option (list Item)) (s : t) :
  requests (settle old s) = requests s.
Proof.
  destruct (settle_options_only old s) as [l ->]. reflexivity.
Qed.

Lemma requests_settleFresh (s : t) : requests (settleFresh s) = requests s.
Proof.
  destruct (settleFresh_options_only s) as [l ->]. reflexivity.
Qed.

Lemma afterTmpVal_no_search (old : option (list Item)) (s : t) :
  onDemandSearch s = false -> afterTmpVal old s = s.
Proof.
  intros Hods. unfold afterTmpVal, tmpValTick.
  destruct (value_eq_dec _ _); [reflexivity|].
  destruct (tmpVal (edit s)); [|reflexivity].
  rewrite Hods, andb_false_r. reflexivity.
Qed.

(** Without on-demand search the ticks do nothing: the reaction to an
    event is the re-render's [beforeUpdate]. *)
Lemma settle_no_search (old : option (list Item)) (s : t) :
  onDemandSearch s = false -> settle old s = beforeUpdate s.
Proof.
  intros Hods. unfold settle. apply afterTmpVal_no_search.
  destruct (beforeUpdate_options_only s) as [l ->]. exact Hods.
Qed.

Lemma settleFresh_no_search (s : t) :
  onDemandSearch s = false -> settleFresh s = beforeUpdate s.
Proof.
  intros Hods. unfold settleFresh, tmpValTick.
  destruct (beforeUpdate_options_only s) as [l ->]. simpl.
  destruct (tmpVal (edit s)); [|reflexivity].
  rewrite Hods, andb_false_r. reflexivity.
Qed.

Lemma emitted_modelValueHandler {V : Type}
      (o : WatchOpts) (v : option V) (s : Field V) :
  emitted (modelValueHandler o v s) = emitted s.
Proof.
  unfold modelValueHandler, modelValueTick.
  destruct (watching s); [|reflexivity].
  destruct (readOnly s), (once o); reflexivity.
Qed.

Lemma emitted_hostUpdate {V : Type}
      (dec : forall x y : option V, {x = y} + {x <> y})
      (o : WatchOpts) (v : option V) (s : Field V) :
  emitted (hostUpdate dec o v s) = emitted s.
Proof.
  unfold hostUpdate, modelValueHandler, modelValueTick.
  destruct (dec v (modelValue s)); [reflexivity|]. simpl.
  destruct (watching s); [|reflexivity].
  destruct (readOnly s), (once o); reflexivity.
Qed.

Lemma edit_onFilter (text : string) (s : t) : edit (onFilter text s) = edit s.
Proof.
  unfold onFilter, filterValueChanged.
  destruct (negb (onDemandSearch s)); [reflexivity|].
  destruct (String.eqb text (filterValue s)); [reflexivity|].
  destruct (_ && _ && _); [reflexivity|].
  destruct (_ && _); reflexivity.
Qed.

Lemma edit_settled (s : t) (e : Event) :
  match e with
  | Resolved _ _ | Rejected _ | Render | Filter _ => edit (step s e) = edit s
  | _ => True
  end.
Proof.
  destruct e; simpl; trivial.
  - destruct (widgetShown s); [apply edit_onFilter | reflexivity].
  - destruct (lookupPending i s) as [[|]|]; try reflexivity.
    unfold filterResolved. destruct (value (unpark i s)); reflexivity.
  - destruct (lookupPending i s) as [[|]|]; reflexivity.
  - unfold beforeUpdate. destruct (value s); [|reflexivity].
    destruct (_ && _ && _); reflexivity.
Qed.

Lemma emitted_step (s : t) (e : Event) :
  emitted (edit (step s e)) = emitted (edit s) ++ emission s e.
Proof.
  pose proof (edit_settled s e) as Hsettled.
  destruct e;
    try (rewrite Hsettled; simpl; rewrite app_nil_r; reflexivity);
    clear Hsettled; cbn [step emission].
  - destruct op; destruct (offered _ (edit s));
      rewrite ?edit_settle; simpl; rewrite ?app_nil_r; reflexivity.
  - unfold widgetShown, removeAll.
    destruct (readOnly (edit s)); cbn [negb orb].
    + destruct (isEditing (edit s));
        rewrite ?edit_settleFresh; simpl; rewrite app_nil_r; reflexivity.
    + reflexivity.
  - destruct (readOnly (edit s)); cbn [negb]; [|reflexivity].
    destruct (isEditing (edit s));
      rewrite ?edit_settleFresh; simpl; rewrite app_nil_r; reflexivity.
  - rewrite edit_settle. cbn [edit setEdit].
    rewrite emitted_modelValueHandler, app_nil_r. reflexivity.
Qed.

Lemma requests_step (s : t) (e : Event) :
  requests (step s e) = requests s ++ sent s e.
Proof.
  destruct e; cbn [step sent]; rewrite ?app_nil_r.
  - destruct (offered op (edit s)); [rewrite requests_settle|]; reflexivity.
  - destruct (widgetShown s); [|reflexivity].
    unfold removeAll. destruct (readOnly (edit s));
      [rewrite requests_settleFresh|]; reflexivity.
  - destruct (negb (readOnly (edit s))); [reflexivity|].
    destruct (isEditing (edit s)); [rewrite requests_settleFresh|]; reflexivity.
  - unfold onFilter, filterValueChanged.
    destruct (widgetShown s); cbn [andb]; [|rewrite app_nil_r; reflexivity].
    destruct (onDemandSearch s); cbn [andb negb];
      [|rewrite app_nil_r; reflexivity].
    destruct (String.eqb text (filterValue s)); cbn [andb negb];
      [rewrite app_nil_r; reflexivity|].
    destruct (2 <=? String.length text)%nat eqn:Hlen.
    + apply Nat.leb_le in Hlen.
      replace (String.length text <? 2)%nat with false
        by (symmetry; apply Nat.ltb_ge; exact Hlen).
      rewrite andb_false_r.
      assert (Hne : String.eqb text "" = false)
        by (destruct text; [simpl in Hlen; lia | reflexivity]).
      rewrite Hne. reflexivity.
    + rewrite andb_false_r.
      destruct (_ && _ && _); simpl; rewrite app_nil_r; reflexivity.
  - rewrite requests_settle. reflexivity.
  - destruct (lookupPending i s) as [[|]|]; try reflexivity.
    unfold filterResolved. destruct (value (unpark i s)); reflexivity.
  - destruct (lookupPending i s) as [[|]|]; reflexivity.
  - unfold beforeUpdate. destruct (value s); [|reflexivity].
    destruct (_ && _ && _); reflexivity.
Qed.

(** X1.  Whatever happens to a Multiselect (clicks, picks, filter texts,
    host updates, responses, re-renders), its emit log grows by exactly the
    notifications of [emissions]: the draft on an accept click, and in an
    editable field the picked value or the empty list of Remove All.
    Responses, failures, filtering, rendering and host updates never emit. *)
Theorem multiselect_emits_only_commits (es : list Event) (s : t) :
  emitted (edit (steps es s)) = emitted (edit s) ++ emissions es s.
Proof.
  revert s. unfold steps.
  induction es as [|e rest IH]; intros s; simpl.
  - rewrite app_nil_r. reflexivity.
  - rewrite IH, emitted_step, <- app_assoc. reflexivity.
Qed.

(** The option-fetch log of the field grows by the searches of [allSent]
    only: one per changed filter text of two or more characters typed into
    the rendered widget of an on-demand-search field. *)
Theorem multiselect_sends_only_searches (es : list Event) (s : t) :
  requests (steps es s) = requests s ++ allSent es s.
Proof.
  revert s. unfold steps.
  induction es as [|e rest IH]; intros s; simpl.
  - rewrite app_nil_r. reflexivity.
  - rewrite IH, requests_step, <- app_assoc. reflexivity.
Qed.

End MultiselectEvents.

Section MultiselectInvariants.

Import Multiselect.

Lemma readOnly_hostUpdate {V : Type}
      (dec : forall x y : option V, {x = y} + {x <> y})
      (o : WatchOpts) (v : option V) (s : Field V) :
  readOnly (hostUpdate dec o v s) = readOnly s /\
  allowEdit (hostUpdate dec o v s) = allowEdit s.
Proof.
  unfold hostUpdate, modelValueHandler, modelValueTick.
  destruct (dec v (modelValue s)); [auto|]. simpl.
  destruct (watching s); [|auto].
  destruct (readOnly s) eqn:Hro, (once o); simpl; auto.
Qed.

Lemma readOnly_modelValueHandler {V : Type}
      (o : WatchOpts) (v : option V) (s : Field V) :
  readOnly (modelValueHandler o v s) = readOnly s /\
  allowEdit (modelValueHandler o v s) = allowEdit s.
Proof.
  unfold modelValueHandler, modelValueTick.
  destruct (watching s); [|auto].
  destruct (readOnly s) eqn:Hro, (once o); simpl; auto.
Qed.

Lemma props_step (s : t) (e : Event) :
  readOnly (edit (step s e)) = readOnly (edit s) /\
  allowEdit (edit (step s e)) = allowEdit (edit s) /\
  url (step s e) = url s /\
  data (step s e) = data s /\
  label (step s e) = label s /\
  onDemandSearch (step s e) = onDemandSearch s.
Proof.
  destruct e; cbn [step].
  - destruct (offered op (edit s)); [|auto 10].
    destruct (settle_options_only (tmpVal (edit s))
                                  (setEdit (call op (edit s)) s)) as [l ->].
    destruct op; simpl; auto 10.
  - destruct (widgetShown s); [|auto 10].
    unfold removeAll. destruct (readOnly (edit s)) eqn:Hro.
    + destruct (settleFresh_options_only
                  (setEdit (setTmpVal (Some []) (edit s)) s)) as [l ->].
      simpl. auto 10.
    + simpl. auto 10.
  - destruct (negb (readOnly (edit s))); [simpl; auto 10|].
    destruct (isEditing (edit s)); [|auto 10].
    destruct (settleFresh_options_only
                (setEdit (editDraft (Some v) (edit s)) s)) as [l ->].
    simpl. auto 10.
  - destruct (widgetShown s); [|auto 10].
    rewrite edit_onFilter. unfold onFilter, filterValueChanged.
    destruct (negb (onDemandSearch s)); [auto 10|].
    destruct (String.eqb text (filterValue s)); [auto 10|].
    destruct (_ && _ && _); [simpl; auto 10|].
    destruct (_ && _); simpl; auto 10.
  - destruct (settle_options_only (tmpVal (edit s))
                (setEdit (modelValueHandler selectWatch v
                            (setModelValue v (edit s))) s)) as [l ->].
    cbn [edit setEdit setOptions url data label onDemandSearch].
    destruct (readOnly_modelValueHandler selectWatch v
                (setModelValue v (edit s))) as [-> ->].
    simpl. auto 10.
  - destruct (lookupPending i s) as [[|]|]; [simpl; auto 10| |auto 10].
    unfold filterResolved. destruct (value (unpark i s)); simpl; auto 10.
  - destruct (lookupPending i s) as [[|]|]; simpl; auto 10.
  - unfold beforeUpdate. destruct (value s); [|auto 10].
    destruct (_ && _ && _); simpl; auto 10.
Qed.

Lemma modelValue_step (s : t) (e : Event) :
  match e with
  | HostUpdate _ => True
  | _ => value (step s e) = value s
  end.
Proof.
  pose proof (edit_settled s e) as Hsettled.
  destruct e; trivial; unfold value;
    try (rewrite Hsettled; reflexivity); clear Hsettled; cbn [step].
  - destruct (offered op (edit s)); [|reflexivity].
    rewrite edit_settle. destruct op; reflexivity.
  - destruct (widgetShown s); [|reflexivity].
    unfold removeAll.
    destruct (readOnly (edit s)); rewrite ?edit_settleFresh; reflexivity.
  - destruct (negb (readOnly (edit s))); [reflexivity|].
    destruct (isEditing (edit s)); [|reflexivity].
    rewrite edit_settleFresh. reflexivity.
Qed.

(** X3.  A Multiselect never writes its props: after any sequence of
    events [readOnly], [allowEdit], [url], [data], [label] and
    [onDemandSearch] are what they were, and [modelValue] changes only when
    the host assigns it (it is unchanged when the sequence holds no host
    update), in particular not on accept. *)
Theorem multiselect_never_writes_props (es : list Event) (s : t) :
  readOnly (edit (steps es s)) = readOnly (edit s) /\
  allowEdit (edit (steps es s)) = allowEdit (edit s) /\
  url (steps es s) = url s /\
  data (steps es s) = data s /\
  label (steps es s) = label s /\
  onDemandSearch (steps es s) = onDemandSearch s /\
  (Forall (fun e => match e with HostUpdate _ => False | _ => True end) es ->
   value (steps es s) = value s).
Proof.
  revert s. unfold steps.
  induction es as [|e rest IH]; intros s; cbn [fold_left].
  - auto 10.
  - destruct (IH (step s e)) as [H1 [H2 [H3 [H4 [H5 [H6 H7]]]]]].
    destruct (props_step s e) as [P1 [P2 [P3 [P4 [P5 P6]]]]].
    rewrite H1, H2, H3, H4, H5, H6, P1, P2, P3, P4, P5, P6.
    repeat split.
    intros Hall. inversion Hall as [|e' rest' He Hrest]; subst.
    rewrite (H7 Hrest).
    pose proof (modelValue_step s e) as Hm.
    destruct e; try exact Hm. contradiction.
Qed.

Lemma multiselect_never_writes_props_witness :
  value (steps [Click OpToggle; Pick []; Click OpAccept; Render; Filter "ab"]
               (remoteField [itemA])) = Some [itemA].
Proof.
  refine (proj2 (proj2 (proj2 (proj2 (proj2 (proj2
    (multiselect_never_writes_props
       [Click OpToggle; Pick []; Click OpAccept; Render; Filter "ab"]
       (remoteField [itemA]))))))) _).
  repeat constructor.
Defined.

Lemma lookupPending_none (i : nat) (s : t) :
  pending s = [] -> lookupPending i s = None.
Proof. unfold lookupPending. intros ->. reflexivity. Qed.

(** Without on-demand search and with nothing outstanding, an event leaves
    the loading flag, the request log and the parked continuations alone,
    and it leaves the options alone unless it is a re-render of a field
    that is loading without static data. *)
Lemma step_no_search (s : t) (e : Event) :
  onDemandSearch s = false -> pending s = [] ->
  isLoading (step s e) = isLoading s /\
  pending (step s e) = [] /\
  (truthy (data s) = true \/ isLoading s = false ->
   options (step s e) = options s).
Proof.
  intros Hods Hpen.
  assert (Hrender : forall s', onDemandSearch s' = false ->
            isLoading (beforeUpdate s') = isLoading s' /\
            pending (beforeUpdate s') = pending s' /\
            (truthy (data s') = true \/ isLoading s' = false ->
             options (beforeUpdate s') = options s')).
  { intros s' Hods'. unfold beforeUpdate. destruct (value s'); [|auto].
    destruct (data s') eqn:Hd, (isLoading s') eqn:Hl;
      simpl; rewrite ?Hods'; simpl; rewrite ?Hl; auto.
    repeat split; auto. intros [H|H]; discriminate. }
  destruct e; cbn [step].
  - destruct (offered op (edit s)); [|auto].
    rewrite settle_no_search by exact Hods.
    destruct (Hrender (setEdit (call op (edit s)) s) Hods) as [R1 [R2 R3]].
    rewrite R1, R2. auto.
  - destruct (widgetShown s); [|auto].
    unfold removeAll. destruct (readOnly (edit s)); [|simpl; auto].
    rewrite settleFresh_no_search by exact Hods.
    destruct (Hrender (setEdit (setTmpVal (Some []) (edit s)) s) Hods)
      as [R1 [R2 R3]].
    rewrite R1, R2. auto.
  - destruct (negb (readOnly (edit s))); [simpl; auto|].
    destruct (isEditing (edit s)); [|auto].
    rewrite settleFresh_no_search by exact Hods.
    destruct (Hrender (setEdit (editDraft (Some v) (edit s)) s) Hods)
      as [R1 [R2 R3]].
    rewrite R1, R2. auto.
  - destruct (widgetShown s); [|auto].
    unfold onFilter. rewrite Hods. simpl. auto.
  - rewrite settle_no_search by exact Hods.
    destruct (Hrender (setEdit (modelValueHandler selectWatch v
                                  (setModelValue v (edit s))) s) Hods)
      as [R1 [R2 R3]].
    rewrite R1, R2. auto.
  - rewrite (lookupPending_none i s Hpen). auto.
  - rewrite (lookupPending_none i s Hpen). auto.
  - destruct (Hrender s Hods) as [R1 [R2 R3]]. rewrite R1, R2. auto.
Qed.

Lemma requests_steps (es : list Event) (s : t) :
  requests (steps es s) = requests s ++ allSent es s.
Proof.
  revert s. unfold steps.
  induction es as [|e rest IH]; intros s; simpl.
  - rewrite app_nil_r. reflexivity.
  - rewrite IH, requests_step, <- app_assoc. reflexivity.
Qed.

Lemma allSent_no_search (es : list Event) (s : t) :
  onDemandSearch s = false -> allSent es s = [].
Proof.
  revert s.
  induction es as [|e rest IH]; intros s Hods; simpl.
  - reflexivity.
  - destruct (props_step s e) as [_ [_ [_ [_ [_ P6]]]]].
    rewrite IH by congruence.
    destruct e; simpl; try reflexivity.
    rewrite Hods, andb_false_r. reflexivity.
Qed.

(** X4.  Static mode: a Multiselect given a [data] array (and no on-demand
    search) shows exactly that array after mounting and after every
    sequence of events, is never loading, and never sends a request;
    filter texts, re-renders and draft edits do not touch the options. *)
Theorem static_options_never_change
        (ro ae : bool) (mv : option (list Item)) (u lbl : option string)
        (d : list Item) (es : list Event) :
  options (steps es (mount (create ro ae mv u (Some d) lbl false))) = d /\
  isLoading (steps es (mount (create ro ae mv u (Some d) lbl false))) = false /\
  requests (steps es (mount (create ro ae mv u (Some d) lbl false))) = [].
Proof.
  assert (Hinv : forall es s,
            onDemandSearch s = false -> pending s = [] ->
            data s = Some d -> isLoading s = false ->
            options (steps es s) = options s /\
            isLoading (steps es s) = false /\
            pending (steps es s) = []).
  { clear es. unfold steps.
    induction es as [|e rest IH]; intros s Hods Hpen Hd Hl; cbn [fold_left].
    - auto.
    - destruct (step_no_search s e Hods Hpen) as [S1 [S2 S3]].
      destruct (props_step s e) as [_ [_ [_ [P4 [_ P6]]]]].
      destruct (IH (step s e)) as [I1 [I2 I3]];
        try congruence.
      rewrite I1, S3 by (right; exact Hl). auto. }
  set (s0 := mount (create ro ae mv u (Some d) lbl false)).
  assert (H0 : onDemandSearch s0 = false /\ pending s0 = [] /\
               data s0 = Some d /\ isLoading s0 = false /\
               options s0 = d /\ requests s0 = []).
  { subst s0. destruct ro, mv; repeat split. }
  destruct H0 as [Hods [Hpen [Hd [Hl [Ho Hr]]]]].
  destruct (Hinv es s0 Hods Hpen Hd Hl) as [I1 [I2 _]].
  rewrite I1, Ho, I2. repeat split.
  rewrite requests_steps, Hr, (allSent_no_search es s0 Hods). reflexivity.
Qed.

(** X5.  A Multiselect with neither static data, nor a usable URL, nor
    on-demand search stays in its loading state: after mounting and after
    every sequence of events [isLoading] is true and no request has been
    sent. *)
Theorem no_source_loads_forever
        (ro ae : bool) (mv : option (list Item)) (u lbl : option string)
        (es : list Event) :
  truthyString u = false ->
  isLoading (steps es (mount (create ro ae mv u None lbl false))) = true /\
  pending (steps es (mount (create ro ae mv u None lbl false))) = [] /\
  onDemandSearch (steps es (mount (create ro ae mv u None lbl false)))
  = false.
Proof.
  intros Hu.
  assert (Hinv : forall es s,
            onDemandSearch s = false -> pending s = [] ->
            isLoading s = true ->
            isLoading (steps es s) = true /\
            pending (steps es s) = [] /\
            onDemandSearch (steps es s) = false).
  { clear es. unfold steps.
    induction es as [|e rest IH]; intros s Hods Hpen Hl; cbn [fold_left].
    - auto.
    - destruct (step_no_search s e Hods Hpen) as [S1 [S2 _]].
      destruct (props_step s e) as [_ [_ [_ [_ [_ P6]]]]].
      apply IH; congruence. }
  apply Hinv;
    destruct ro, mv; unfold mount, mounted, create; simpl;
    rewrite ?Hu; reflexivity.
Qed.

Lemma no_source_loads_forever_witness :
  isLoading (steps [Render; Filter "abc"; HostUpdate (Some [itemB]);
                    Click OpToggle; Rejected 0]
                   (mount (create true true (Some [itemA]) (Some "") None
                                  (Some "tags") false))) = true.
Proof.
  exact (proj1 (no_source_loads_forever
                  true true (Some [itemA]) (Some "") (Some "tags")
                  [Render; Filter "abc"; HostUpdate (Some [itemB]);
                   Click OpToggle; Rejected 0]
                  eq_refl)).
Defined.

End MultiselectInvariants.

Section MultiselectSearch.

Import Multiselect.

(** X6.  The loading flag does not count outstanding searches: when two
    search requests are outstanding and one of them settles, by a response
    or by a failure, [isLoading] becomes false although the other one is
    still outstanding. *)
Theorem first_settled_search_clears_loading
        (s : t) (i j : nat) (r : list Item) :
  i <> j ->
  lookupPending i s = Some KFilter ->
  lookupPending j s = Some KFilter ->
  isLoading (step s (Resolved i r)) = false /\
  lookupPending j (step s (Resolved i r)) = Some KFilter /\
  isLoading (step s (Rejected i)) = false /\
  lookupPending j (step s (Rejected i)) = Some KFilter.
Proof.
  intros Hne Hi Hj.
  assert (Hne' : j <> i) by auto.
  rewrite (step_Resolved_filter _ r _ Hi), (step_Rejected_filter _ _ Hi).
  rewrite lookupPending_filterResolved.
  change (lookupPending j (filterRejected (unpark i s)))
    with (lookupPending j (unpark i s)).
  rewrite (lookupPending_unpark_other _ _ _ Hne'), Hj.
  repeat split.
Qed.

Lemma first_settled_search_clears_loading_witness :
  isLoading (steps [Filter "ab"; Filter "abc"] (searchField [itemA])) = true /\
  isLoading (step (steps [Filter "ab"; Filter "abc"] (searchField [itemA]))
                  (Resolved 0 [itemB])) = false /\
  lookupPending 1
    (step (steps [Filter "ab"; Filter "abc"] (searchField [itemA]))
          (Resolved 0 [itemB])) = Some KFilter.
Proof.
  assert (Hne : 0 <> 1) by discriminate.
  destruct (first_settled_search_clears_loading
              (steps [Filter "ab"; Filter "abc"] (searchField [itemA]))
              0 1 [itemB] Hne eq_refl eq_refl)
    as [H1 [H2 _]].
  split; [reflexivity|]. split; [exact H1 | exact H2].
Defined.

(** X7.  In a read-only on-demand-search field that is being edited, a
    change of the draft replaces the options by the draft: after picking
    [v] the options are exactly [v], and after Remove All they are empty,
    whatever search hits were listed before. *)
Theorem draft_change_replaces_options (s : t) (v : list Item) :
  readOnly (edit s) = true -> onDemandSearch s = true ->
  isEditing (edit s) = true ->
  (Some v <> tmpVal (edit s) -> options (step s (Pick v)) = v) /\
  (Some [] <> tmpVal (edit s) -> options (step s RemoveAllClick) = []).
Proof.
  intros Hro Hods Hed.
  split; intros _; cbn [step]; unfold widgetShown, removeAll;
    rewrite Hro, Hed; cbn [negb orb]; unfold settleFresh, tmpValTick.
  - destruct (beforeUpdate_options_only
                (setEdit (editDraft (Some v) (edit s)) s)) as [l ->].
    simpl. rewrite Hro, Hods. reflexivity.
  - destruct (beforeUpdate_options_only
                (setEdit (setTmpVal (Some []) (edit s)) s)) as [l ->].
    simpl. rewrite Hro, Hods. reflexivity.
Qed.

Lemma draft_change_replaces_options_witness :
  options (steps [Click OpToggle; Filter "ab"; Resolved 0 [itemB; itemC]]
                 (draftSearchField [itemA])) = [itemB; itemC; itemA] /\
  options (step (steps [Click OpToggle; Filter "ab";
                        Resolved 0 [itemB; itemC]]
                       (draftSearchField [itemA]))
                (Pick [itemA; itemB])) = [itemA; itemB].
Proof.
  assert (Hne : Some [itemA; itemB]
                <> tmpVal (edit (steps [Click OpToggle; Filter "ab";
                                        Resolved 0 [itemB; itemC]]
                                       (draftSearchField [itemA]))))
    by discriminate.
  split; [reflexivity|].
  exact (proj1 (draft_change_replaces_options
                  (steps [Click OpToggle; Filter "ab";
                          Resolved 0 [itemB; itemC]]
                         (draftSearchField [itemA]))
                  [itemA; itemB] eq_refl eq_refl eq_refl) Hne).
Defined.

(** *** The duplicate filter *)

Lemma keepFirstSeen_In (l : list Item) (seen : list Z) (x : Item) :
  In x (keepFirstSeen seen l) -> In x l.
Proof.
  revert seen.
  induction l as [|y rest IH]; intros seen; simpl.
  - auto.
  - destruct (existsb (Z.eqb (id y)) seen); simpl.
    + intros H. right. eapply IH, H.
    + intros [H|H]; [left; exact H | right; eapply IH, H].
Qed.

Lemma keepFirstSeen_fresh (l : list Item) (seen : list Z) :
  NoDup (map id l) -> (forall z, In z seen -> ~ In z (map id l)) ->
  keepFirstSeen seen l = l.
Proof.
  revert seen.
  induction l as [|x rest IH]; intros seen Hnd Hfresh; simpl.
  - reflexivity.
  - inversion Hnd as [|? ? Hx Hrest]; subst.
    destruct (existsb (Z.eqb (id x)) seen) eqn:Hmem.
    + apply seen_mem in Hmem. exfalso.
      apply (Hfresh _ Hmem). left. reflexivity.
    + f_equal. apply IH; [exact Hrest|].
      intros z [Hz|Hz] Hin.
      * subst z. contradiction.
      * apply (Hfresh z Hz). right. exact Hin.
Qed.

(** The keys already seen matter as a set only. *)
Lemma keepFirstSeen_filter (l : list Item) (seen1 seen2 seen : list Z) :
  (forall z, In z seen1 <-> In z seen2 \/ In z seen) ->
  keepFirstSeen seen1 l
  = keepFirstSeen seen2
      (filter (fun x => negb (existsb (Z.eqb (id x)) seen)) l).
Proof.
  revert seen1 seen2.
  induction l as [|x rest IH]; intros seen1 seen2 Hs; simpl.
  - reflexivity.
  - destruct (existsb (Z.eqb (id x)) seen) eqn:Hin; simpl.
    + assert (H1 : existsb (Z.eqb (id x)) seen1 = true)
        by (apply seen_mem, Hs; right; apply seen_mem, Hin).
      rewrite H1. apply IH, Hs.
    + destruct (existsb (Z.eqb (id x)) seen2) eqn:H2.
      * assert (H1 : existsb (Z.eqb (id x)) seen1 = true)
          by (apply seen_mem, Hs; left; apply seen_mem, H2).
        rewrite H1. apply IH, Hs.
      * assert (H1 : existsb (Z.eqb (id x)) seen1 = false).
        { destruct (existsb (Z.eqb (id x)) seen1) eqn:E; [|reflexivity].
          apply seen_mem, Hs in E. destruct E as [E|E];
            apply seen_mem in E; congruence. }
        rewrite H1. f_equal. apply IH.
        intros z. simpl. rewrite Hs. tauto.
Qed.

(** X8.  The duplicate filter of the search watcher returns its argument
    unchanged exactly when no two items share an [id]; it only drops
    items, and applying it twice is the same as applying it once. *)
Theorem dedupe_fixes_duplicate_free_lists (l : list Item) :
  (dedupe l = l <-> NoDup (map id l)) /\
  (forall x, In x (dedupe l) -> In x l) /\
  dedupe (dedupe l) = dedupe l.
Proof.
  assert (Hfix : forall l', NoDup (map id l') -> dedupe l' = l').
  { intros l' Hnd. rewrite dedupe_keepFirstById.
    apply keepFirstSeen_fresh; [exact Hnd | intros z []]. }
  split; [split|split].
  - intros Heq. rewrite <- Heq, dedupe_keepFirstById.
    apply keepFirstSeen_NoDup.
  - apply Hfix.
  - intros x. rewrite dedupe_keepFirstById. apply keepFirstSeen_In.
  - apply Hfix. rewrite dedupe_keepFirstById. apply keepFirstSeen_NoDup.
Qed.

(** X9.  When the search hits carry distinct [id]s, a successful search
    lists the hits unchanged and in their order, followed by the selected
    items whose [id] no hit has (each such [id] once). *)
Theorem search_hits_come_first
        (s : t) (i : nat) (fetchResult sel : list Item) :
  lookupPending i s = Some KFilter -> value s = Some sel ->
  NoDup (map id fetchResult) ->
  options (step s (Resolved i fetchResult))
  = fetchResult
    ++ dedupe (filter (fun x => negb (existsb (Z.eqb (id x))
                                              (map id fetchResult)))
                      sel).
Proof.
  intros Hpend Hsel Hnd.
  rewrite (step_Resolved_filter _ _ _ Hpend), options_filterResolved.
  change (value (unpark i s)) with (value s). rewrite Hsel.
  unfold mergeById, keepFirstById.
  rewrite keepFirstSeen_app, dedupe_keepFirstById. unfold keepFirstById.
  rewrite (keepFirstSeen_fresh fetchResult []) by (auto; intros z []).
  f_equal. apply keepFirstSeen_filter.
  intros z. rewrite app_nil_r, <- in_rev. simpl. tauto.
Qed.

Lemma search_hits_come_first_witness :
  options (step (steps [Filter "ab"] (searchField [itemA; itemC]))
                (Resolved 0 [itemB; itemA]))
  = [itemB; itemA] ++ dedupe [itemC].
Proof.
  assert (Hnd : NoDup (map id [itemB; itemA])).
  { repeat constructor; simpl; intros H;
      repeat (destruct H as [H|H]; [discriminate|]); exact H. }
  exact (search_hits_come_first
           (steps [Filter "ab"] (searchField [itemA; itemC]))
           0 [itemB; itemA] [itemA; itemC] eq_refl eq_refl Hnd).
Defined.

Lemma findIndexFrom_first {A : Type} (p : A -> bool) (l : list A) (k : Z) :
  existsb p l = true ->
  exists pre x post,
    l = pre ++ x :: post /\
    findIndexFrom p l k = (k + Z.of_nat (List.length pre))%Z /\
    p x = true /\ existsb p pre = false.
Proof.
  revert k.
  induction l as [|y rest IH]; intros k; simpl; [discriminate|].
  destruct (p y) eqn:Hy.
  - intros _. exists [], y, rest. simpl. repeat split; auto. lia.
  - simpl. intros Hex.
    destruct (IH (k + 1)%Z Hex) as [pre [x [post [Hl [Hidx [Hx Hpre]]]]]].
    exists (y :: pre), x, post. simpl. rewrite Hy, Hpre, Hidx.
    repeat split; [rewrite Hl; reflexivity | lia | exact Hx].
Qed.

(** X10.  [findIndex] returns [-1] exactly when no element satisfies the
    predicate; otherwise it returns the position of the first element that
    does: the element there satisfies it and no earlier one does. *)
Theorem findIndex_first_match {A : Type} (p : A -> bool) (l : list A) :
  (findIndex p l = (-1)%Z <-> existsb p l = false) /\
  (existsb p l = true ->
   exists pre x post,
     l = pre ++ x :: post /\
     findIndex p l = Z.of_nat (List.length pre) /\
     p x = true /\ existsb p pre = false).
Proof.
  unfold findIndex. split.
  - split.
    + intros H. destruct (existsb p l) eqn:E; [|reflexivity].
      pose proof (findIndexFrom_range p l 0%Z E). lia.
    + intros H. rewrite <- (app_nil_r l), findIndexFrom_app_miss by exact H.
      reflexivity.
  - intros Hex.
    destruct (findIndexFrom_first p l 0%Z Hex)
      as [pre [x [post [Hl [Hidx [Hx Hpre]]]]]].
    exists pre, x, post. rewrite Hidx. auto.
Qed.

Lemma findIndex_first_match_witness :
  findIndex (fun item => Z.eqb (id item) 1) [itemB; itemA; itemA] = 1%Z.
Proof.
  destruct (proj2 (findIndex_first_match
                     (fun item => Z.eqb (id item) 1) [itemB; itemA; itemA])
                  eq_refl)
    as [pre [x [post [Hl [Hidx [Hx Hpre]]]]]].
  rewrite Hidx.
  destruct pre as [|a [|b pre]].
  - simpl in Hl. injection Hl as Hx' _. subst x. discriminate.
  - reflexivity.
  - exfalso. simpl in Hl. injection Hl as Ha Hb _. subst a b.
    simpl in Hpre. discriminate.
Defined.

End MultiselectSearch.

(** ** Fields bound with [v-model] *)

Section VModel.

Context {V : Type}.
Variable dec : forall x y : option V, {x = y} + {x <> y}.
Implicit Types (s : Field V) (v : option V).

Lemma isEditing_hostUpdate (o : WatchOpts) v s :
  isEditing (hostUpdate dec o v s) = isEditing s.
Proof.
  unfold hostUpdate, modelValueHandler, modelValueTick.
  destruct (dec v (modelValue s)); [reflexivity|]. simpl.
  destruct (watching s); [|reflexivity].
  destruct (readOnly s), (once o); reflexivity.
Qed.

(** Applying the payload of an accept brings the draft in sync, whatever
    the watcher does. *)
Lemma accept_applied_mirrored (o : WatchOpts) s :
  readOnly s = true ->
  mirrored (hostUpdate dec o (tmpVal s) (acceptEdit s)).
Proof.
  intros Hro. unfold hostUpdate, mirrored.
  destruct (dec (tmpVal s) (modelValue (acceptEdit s))) as [Heq|_].
  - exact Heq.
  - unfold modelValueHandler, modelValueTick. simpl.
    destruct (watching s); [|reflexivity].
    rewrite Hro. destruct (once o); reflexivity.
Qed.

Lemma hostUpdate_select_mirrored v s :
  readOnly s = true -> watching s = true -> mirrored s ->
  mirrored (hostUpdate dec selectWatch v s).
Proof.
  intros Hro Hw Hm.
  destruct (dec v (modelValue s)) as [Heq|Hne].
  - unfold hostUpdate. destruct (dec v (modelValue s)); [exact Hm|].
    contradiction.
  - apply (hostUpdate_every_time dec v s Hro Hw Hne).
Qed.

Lemma watching_hostUpdate_select v s :
  watching s = true -> watching (hostUpdate dec selectWatch v s) = true.
Proof.
  intros Hw. unfold hostUpdate, modelValueHandler, modelValueTick.
  destruct (dec v (modelValue s)); [exact Hw|]. simpl.
  rewrite Hw. destruct (readOnly s); exact Hw.
Qed.

Lemma vmodelStep_select_invariant s (e : FieldEvent V) :
  readOnly s = true -> watching s = true ->
  (isEditing s = false -> mirrored s) ->
  readOnly (vmodelStep dec selectWatch s e) = true /\
  watching (vmodelStep dec selectWatch s e) = true /\
  (isEditing (vmodelStep dec selectWatch s e) = false ->
   mirrored (vmodelStep dec selectWatch s e)).
Proof.
  intros Hro Hw Hm.
  destruct e as [op|v|v]; cbn [vmodelStep].
  - destruct (offered op s) eqn:Hoff; [|auto].
    destruct op.
    + unfold offered in Hoff. rewrite Hro in Hoff.
      apply andb_true_iff in Hoff as [_ Hd]. apply negb_true_iff in Hd.
      simpl. rewrite Hd. repeat split; auto; discriminate.
    + destruct (readOnly_hostUpdate dec selectWatch (tmpVal s) (acceptEdit s))
        as [-> _].
      rewrite watching_hostUpdate_select by exact Hw.
      repeat split; [exact Hro|].
      intros _. apply accept_applied_mirrored, Hro.
    + simpl. repeat split; auto.
  - rewrite Hro. simpl.
    destruct (isEditing s) eqn:Hed; [|auto].
    simpl. rewrite Hed. repeat split; auto; discriminate.
  - destruct (readOnly_hostUpdate dec selectWatch v s) as [-> _].
    rewrite watching_hostUpdate_select by exact Hw.
    rewrite isEditing_hostUpdate.
    repeat split; [exact Hro|].
    intros Hed.
    destruct (dec v (modelValue s)) as [Heq|Hne].
    + unfold hostUpdate. destruct (dec v (modelValue s)); [auto|].
      contradiction.
    + apply (hostUpdate_every_time dec v s Hro Hw Hne).
Qed.

(** X11.  In a read-only Select or Multiselect bound with [v-model] (the
    watcher runs [immediate] and on every change), whenever the field is in
    Display mode the draft equals the committed value, after any sequence
    of clicks, draft edits and external updates: every begin-edit starts
    from the committed value. *)
Theorem select_display_draft_in_sync
        (ae : bool) (mv : option V) (es : list (FieldEvent V)) :
  isEditing (vmodelRun dec selectWatch es (createField selectWatch true ae mv))
  = false ->
  mirrored (vmodelRun dec selectWatch es (createField selectWatch true ae mv)).
Proof.
  assert (Hinv : forall es s,
            readOnly s = true -> watching s = true ->
            (isEditing s = false -> mirrored s) ->
            isEditing (vmodelRun dec selectWatch es s) = false ->
            mirrored (vmodelRun dec selectWatch es s)).
  { clear es. unfold vmodelRun.
    induction es as [|e rest IH]; intros s Hro Hw Hm; cbn [fold_left].
    - exact Hm.
    - destruct (vmodelStep_select_invariant s e Hro Hw Hm) as [H1 [H2 H3]].
      apply IH; assumption. }
  apply Hinv; try reflexivity.
Qed.

(** X12.  In every component bound with [v-model], a completed edit leaves
    the field in Display mode with the draft equal to the committed value:
    after a dismiss the draft is reset to it, after an accept the host has
    stored the draft.  This holds for Input and Textarea too, whose watcher
    may no longer be registered. *)
Theorem completed_edit_restores_sync
        (o : WatchOpts) (s : Field V) (op : EditOp) :
  offered op s = true -> op <> OpToggle ->
  mode (vmodelStep dec o s (FClick op)) = Display /\
  mirrored (vmodelStep dec o s (FClick op)).
Proof.
  intros Hoff Hop. cbn [vmodelStep]. rewrite Hoff.
  assert (Hro : readOnly s = true /\ isEditing s = true).
  { unfold offered in Hoff.
    apply andb_true_iff in Hoff as [Hra Hed].
    apply andb_true_iff in Hra as [Hro _].
    destruct op; [contradiction | auto | auto]. }
  destruct Hro as [Hro Hed].
  destruct op; [contradiction | |].
  - split; [|apply accept_applied_mirrored, Hro].
    unfold mode. rewrite isEditing_hostUpdate. simpl. rewrite Hed. reflexivity.
  - split; [|reflexivity].
    unfold mode. simpl. rewrite Hed. reflexivity.
Qed.

(** X13.  In a read-only Select or Multiselect an external update that
    arrives while the field is being edited replaces the draft by the new
    committed value: the edit in progress is lost, and the field stays in
    Editing mode. *)
Theorem external_update_discards_draft
        (s : Field V) (draft v : option V) :
  readOnly s = true -> watching s = true -> isEditing s = true ->
  v <> modelValue s ->
  tmpVal (vmodelRun dec selectWatch [FDraft draft; FHost v] s) = v /\
  mode (vmodelRun dec selectWatch [FDraft draft; FHost v] s) = Editing.
Proof.
  intros Hro Hw Hed Hne.
  unfold vmodelRun. cbn [fold_left vmodelStep].
  rewrite Hro, Hed. cbn [andb].
  unfold mode. rewrite isEditing_hostUpdate.
  assert (Hne' : v <> modelValue (editDraft draft s)) by exact Hne.
  destruct (hostUpdate_every_time dec v (editDraft draft s) Hro Hw Hne')
    as [Hm [Hmv _]].
  unfold mirrored in Hm. rewrite Hm, Hmv. simpl. rewrite Hed. auto.
Qed.

End VModel.

Lemma select_display_draft_in_sync_witness :
  mirrored
    (vmodelRun Input.value_eq_dec selectWatch
       [FHost (Some "b"); FClick OpToggle; FDraft (Some "c"); FClick OpAccept;
        FHost (Some "d"); FHost (Some "e")]
       (createField selectWatch true true (Some "a"))).
Proof.
  exact (select_display_draft_in_sync
           Input.value_eq_dec true (Some "a")
           [FHost (Some "b"); FClick OpToggle; FDraft (Some "c");
            FClick OpAccept; FHost (Some "d"); FHost (Some "e")]
           eq_refl).
Defined.

Lemma completed_edit_restores_sync_witness :
  mirrored
    (vmodelStep Input.value_eq_dec inputWatch
       (editDraft (Some "typed") (toggleEdit (Input.create true true (Some "a"))))
       (FClick OpAccept)).
Proof.
  assert (Hop : OpAccept <> OpToggle) by discriminate.
  exact (proj2 (completed_edit_restores_sync
                  Input.value_eq_dec inputWatch
                  (editDraft (Some "typed")
                             (toggleEdit (Input.create true true (Some "a"))))
                  OpAccept eq_refl Hop)).
Defined.

Lemma external_update_discards_draft_witness :
  tmpVal (vmodelRun Input.value_eq_dec selectWatch
            [FDraft (Some "typed"); FHost (Some "b")]
            (toggleEdit (createField selectWatch true true (Some "a"))))
  = Some "b".
Proof.
  assert (Hne : Some "b" <> modelValue
                  (toggleEdit (createField selectWatch true true (Some "a"))))
    by discriminate.
  exact (proj1 (external_update_discards_draft
                  Input.value_eq_dec
                  (toggleEdit (createField selectWatch true true (Some "a")))
                  (Some "typed") (Some "b") eq_refl eq_refl eq_refl Hne)).
Defined.

(** The edit slice of a mounted read-only Multiselect is the one the
    properties above start from. *)
Lemma edit_mount_readOnly
      (ae : bool) (mv : option (list Multiselect.Item))
      (u : option string) (d : option (list Multiselect.Item))
      (lbl : option string) (ods : bool) :
  Multiselect.edit (Multiselect.mount (Multiselect.create true ae mv u d lbl ods))
  = createField selectWatch true ae mv.
Proof.
  unfold Multiselect.mount, Multiselect.tmpValTick.
  destruct ods, d, mv, (truthyString u) eqn:Hu;
    unfold Multiselect.mounted, Multiselect.create; simpl; rewrite ?Hu;
    reflexivity.
Qed.

(** ** Toaster *)

Section ToasterProperties.

Variable t : string -> string.
Variable capitalize : string -> string.

(** X14.  The summary of a toast: with a non-empty [summaryPrefix] it is
    the capitalized translation of the prefix alone, and the summary key is
    not shown; without one it is the capitalized text made of a space and
    the translation of the summary key; with an empty or missing summary
    key it is empty even when a prefix is given.  So the load failure of a
    labelled field is announced by the translated label. *)
Theorem toast_summary_shows_prefix_alone (c : Toaster.Call) (s : string) :
  Toaster.callSummary c = Some s ->
  s <> "" ->
  (forall p, Toaster.callPrefix c = Some p -> p <> "" ->
     Toaster.summary (Toaster.toast t capitalize c) = capitalize (t p)) /\
  (truthyString (Toaster.callPrefix c) = false ->
     Toaster.summary (Toaster.toast t capitalize c)
     = capitalize (String.append " " (t s))) /\
  (forall c', truthyString (Toaster.callSummary c') = false ->
     Toaster.summary (Toaster.toast t capitalize c') = "") /\
  (forall lbl, lbl <> "" ->
     Toaster.summary
       (Toaster.toast t capitalize (Toaster.ofToast (loadFailure (Some lbl))))
     = capitalize (t lbl)).
Proof.
  intros Hs Hne.
  apply String.eqb_neq in Hne.
  repeat split.
  - intros p Hp Hpne. apply String.eqb_neq in Hpne.
    unfold Toaster.toast, Toaster.summaryText. simpl.
    rewrite Hs, Hne, Hp. simpl. rewrite Hpne. reflexivity.
  - intros Hp.
    unfold Toaster.toast, Toaster.summaryText. simpl.
    rewrite Hs, Hne, Hp. reflexivity.
  - intros c' Hc'.
    unfold Toaster.toast, Toaster.summaryText. simpl.
    destruct (Toaster.callSummary c') as [s'|]; [|reflexivity].
    simpl in Hc'. apply negb_false_iff in Hc'. rewrite Hc'. reflexivity.
  - intros lbl Hl. apply String.eqb_neq in Hl.
    unfold Toaster.toast, Toaster.summaryText. simpl. rewrite Hl. reflexivity.
Qed.

End ToasterProperties.

Lemma toast_summary_shows_prefix_alone_witness :
  Toaster.summary
    (Toaster.toast (fun key => key) (fun text => text)
       (Toaster.ofToast (loadFailure (Some "tags")))) = "tags" /\
  Toaster.summary
    (Toaster.toast (fun key => key) (fun text => text)
       (Toaster.ofToast (loadFailure None))) = " errors.messages.couldNotLoad".
Proof.
  assert (Hne : "errors.messages.couldNotLoad" <> "") by discriminate.
  assert (Hp : "tags" <> "") by discriminate.
  split.
  - exact (proj1 (toast_summary_shows_prefix_alone
                    (fun key => key) (fun text => text)
                    (Toaster.ofToast (loadFailure (Some "tags")))
                    "errors.messages.couldNotLoad" eq_refl Hne)
                 "tags" eq_refl Hp).
  - exact (proj1 (proj2 (toast_summary_shows_prefix_alone
                    (fun key => key) (fun text => text)
                    (Toaster.ofToast (loadFailure None))
                    "errors.messages.couldNotLoad" eq_refl Hne))
                 eq_refl).
Defined.

(** ** LocalStorage *)

Section LocalStorageProperties.

Import LocalStorage.

Lemma getItem_removeItem_same (k : string) (st : Storage) :
  getItem k (removeItem k st) = None.
Proof.
  induction st as [|[k' v] rest IH]; simpl.
  - reflexivity.
  - destruct (String.eqb k k') eqn:E; simpl; rewrite ?E; exact IH.
Qed.

Lemma getItem_removeItem_other (k k' : string) (st : Storage) :
  k' <> k -> getItem k' (removeItem k st) = getItem k' st.
Proof.
  intros Hne.
  induction st as [|[k0 v] rest IH]; simpl.
  - reflexivity.
  - destruct (String.eqb k k0) eqn:E; simpl.
    + apply String.eqb_eq in E. subst k0.
      apply String.eqb_neq in Hne. rewrite Hne. exact IH.
    + rewrite IH. reflexivity.
Qed.

Lemma getItem_setItem_same (k v : string) (st : Storage) :
  getItem k (setItem k v st) = Some v.
Proof. simpl. rewrite String.eqb_refl. reflexivity. Qed.

Lemma getItem_setItem_other (k k' v : string) (st : Storage) :
  k' <> k -> getItem k' (setItem k v st) = getItem k' st.
Proof.
  intros Hne. simpl.
  pose proof Hne as Hne'. apply String.eqb_neq in Hne'. rewrite Hne'.
  apply getItem_removeItem_other, Hne.
Qed.

Variable Obj : Type.
Variable stringify : Obj -> string.
Variable parse : string -> option Obj.

Implicit Types (s : t Obj) (v : Obj) (path : string).

(** X15.  Saving and restoring: once the watched object has changed to
    [v], the next load of the same route finds the entry and opens the
    dialog; answering yes emits exactly [v] (where [JSON.parse] inverts
    [JSON.stringify]), closes the dialog, shows no toast and removes the
    entry. *)
Theorem saved_value_is_offered_and_restored
        (path : string) (before next : option Obj) (v : Obj) (st : Storage) :
  parse (stringify v) = Some v -> stringify v <> "" ->
  showLoadDialog
    (load path next
          (storage (hostUpdate stringify (Some v) (load path before st))))
  = true /\
  emitted
    (loadStoredData parse
       (load path next
             (storage (hostUpdate stringify (Some v) (load path before st)))))
  = [v] /\
  showLoadDialog
    (loadStoredData parse
       (load path next
             (storage (hostUpdate stringify (Some v) (load path before st)))))
  = false /\
  toasts
    (loadStoredData parse
       (load path next
             (storage (hostUpdate stringify (Some v) (load path before st)))))
  = [] /\
  getItem path
    (storage
       (loadStoredData parse
          (load path next
                (storage (hostUpdate stringify (Some v)
                                     (load path before st))))))
  = None.
Proof.
  intros Hparse Hne.
  apply String.eqb_neq in Hne.
  assert (Hsaved : storage (hostUpdate stringify (Some v) (load path before st))
                   = setItem path (stringify v) st).
  { unfold load, mounted, created, init. simpl.
    destruct (truthyString (getItem path st)); reflexivity. }
  rewrite Hsaved.
  assert (Hload : load path next (setItem path (stringify v) st)
                  = mk Obj next true (Some path) [] []
                       (setItem path (stringify v) st)).
  { unfold load, mounted, created, init.
    cbn [storageKey setStorageKey storage keyOf].
    rewrite getItem_setItem_same. cbn [truthyString]. rewrite Hne.
    reflexivity. }
  rewrite Hload. split; [reflexivity|].
  unfold loadStoredData. cbn [storageKey storage keyOf].
  rewrite getItem_setItem_same. cbn [truthyString]. rewrite Hne.
  cbn [negb]. rewrite Hparse. cbn.
  rewrite String.eqb_refl. cbn.
  repeat split. apply getItem_removeItem_same.
Qed.

(** X16.  A stored text that cannot be parsed is dropped: answering yes
    emits nothing, reports one warning, closes the dialog and removes the
    entry, so the next load of the route does not ask again. *)
Theorem unparsable_entry_is_discarded
        (s : t Obj) (path storedData : string) (next : option Obj) :
  storageKey s = Some path ->
  getItem path (storage s) = Some storedData -> storedData <> "" ->
  parse storedData = None ->
  emitted (loadStoredData parse s) = emitted s /\
  toasts (loadStoredData parse s) = toasts s ++ [parseFailure] /\
  showLoadDialog (loadStoredData parse s) = false /\
  getItem path (storage (loadStoredData parse s)) = None /\
  showLoadDialog (load path next (storage (loadStoredData parse s))) = false.
Proof.
  intros Hkey Hget Hne Hparse.
  apply String.eqb_neq in Hne.
  unfold loadStoredData. rewrite Hkey. cbn [keyOf].
  rewrite Hget. cbn [truthyString]. rewrite Hne. cbn [negb].
  rewrite Hparse. cbn.
  fold (removeItem path (storage s)).
  repeat split; try apply getItem_removeItem_same.
  unfold load, mounted, created, init.
  cbn [storageKey setStorageKey storage keyOf].
  rewrite getItem_removeItem_same. reflexivity.
Qed.

(** X17.  Answering yes does not clear the entry for good when the host
    binds the value with [v-model]: the host assigns the emitted object,
    the watcher runs and stores it again, so the next load of the route
    asks once more. *)
Theorem restored_value_is_saved_again
        (s : t Obj) (path storedData : string) (v : Obj) (next : option Obj) :
  storageKey s = Some path ->
  getItem path (storage s) = Some storedData -> storedData <> "" ->
  parse storedData = Some v -> stringify v <> "" ->
  emitted (loadStoredData parse s) = emitted s ++ [v] /\
  getItem path (storage (loadStoredData parse s)) = None /\
  getItem path
    (storage (hostUpdate stringify (Some v) (loadStoredData parse s)))
  = Some (stringify v) /\
  showLoadDialog
    (load path next
       (storage (hostUpdate stringify (Some v) (loadStoredData parse s))))
  = true.
Proof.
  intros Hkey Hget Hne Hparse Hsne.
  apply String.eqb_neq in Hne. apply String.eqb_neq in Hsne.
  assert (Hrun : loadStoredData parse s
                 = mk Obj (storedValue s) false (Some path)
                      (emitted s ++ [v]) (toasts s)
                      (removeItem path (storage s))).
  { unfold loadStoredData. rewrite Hkey. cbn [keyOf].
    rewrite Hget. cbn [truthyString]. rewrite Hne. cbn [negb].
    rewrite Hparse. unfold setShowLoadDialog, setStorage, emit. cbn.
    rewrite Hkey. reflexivity. }
  rewrite Hrun. cbn.
  rewrite String.eqb_refl.
  repeat split; try apply getItem_removeItem_same.
  unfold load, mounted, created, init. cbn.
  rewrite String.eqb_refl. cbn. rewrite Hsne. reflexivity.
Qed.

(** X18.  The component touches the entry of its own route only: saving,
    restoring, rejecting and removing leave the entry of every other key
    as it was.  Rejecting and removing delete the own entry, and assigning
    [null] to the watched value stores nothing and deletes nothing. *)
Theorem other_entries_are_untouched
        (s : t Obj) (path other : string) (v : option Obj) :
  storageKey s = Some path -> other <> path ->
  getItem other (storage (hostUpdate stringify v s))
  = getItem other (storage s) /\
  getItem other (storage (loadStoredData parse s))
  = getItem other (storage s) /\
  getItem other (storage (rejectStoredData s)) = getItem other (storage s) /\
  getItem other (storage (removeStoredData s)) = getItem other (storage s) /\
  getItem path (storage (rejectStoredData s)) = None /\
  getItem path (storage (removeStoredData s)) = None /\
  storage (hostUpdate stringify None s) = storage s.
Proof.
  intros Hkey Hne.
  unfold hostUpdate, storedValueChanged, loadStoredData, rejectStoredData,
    removeStoredData.
  cbn [storageKey setStoredValue storage setStorage setShowLoadDialog].
  rewrite Hkey. cbn [keyOf].
  repeat split; try apply getItem_removeItem_same;
    try (apply getItem_removeItem_other; exact Hne).
  - destruct v; cbn; [apply getItem_setItem_other; exact Hne | reflexivity].
  - destruct (truthyString (getItem path (storage s))); [|reflexivity].
    destruct (parse _); cbn; apply getItem_removeItem_other; exact Hne.
Qed.

End LocalStorageProperties.

Lemma saved_value_is_offered_and_restored_witness :
  LocalStorage.emitted
    (LocalStorage.loadStoredData (fun text => Some text)
       (LocalStorage.load "/form" None
          (LocalStorage.storage
             (LocalStorage.hostUpdate (fun text => text) (Some "{}")
                (LocalStorage.load "/form" None [("/other", "x")])))))
  = ["{}"].
Proof.
  assert (Hne : "{}" <> "") by discriminate.
  exact (proj1 (proj2 (saved_value_is_offered_and_restored
                         string (fun text => text) (fun text => Some text)
                         "/form" None None "{}" [("/other", "x")]
                         eq_refl Hne))).
Defined.

Lemma unparsable_entry_is_discarded_witness :
  LocalStorage.toasts
    (LocalStorage.loadStoredData (fun _ : string => @None string)
       (LocalStorage.load "/form" None [("/form", "{oops")]))
  = [LocalStorage.parseFailure].
Proof.
  assert (Hne : "{oops" <> "") by discriminate.
  exact (proj1 (proj2 (unparsable_entry_is_discarded
                         string (fun _ : string => @None string)
                         (LocalStorage.load "/form" None [("/form", "{oops")])
                         "/form" "{oops" None eq_refl eq_refl Hne eq_refl))).
Defined.

Lemma restored_value_is_saved_again_witness :
  LocalStorage.getItem "/form"
    (LocalStorage.storage
       (LocalStorage.hostUpdate (fun text => text) (Some "{}")
          (LocalStorage.loadStoredData (fun text => Some text)
             (LocalStorage.load "/form" None [("/form", "{}")]))))
  = Some "{}".
Proof.
  assert (Hne : "{}" <> "") by discriminate.
  exact (proj1 (proj2 (proj2 (restored_value_is_saved_again
                         string (fun text => text) (fun text => Some text)
                         (LocalStorage.load "/form" None [("/form", "{}")])
                         "/form" "{}" "{}" None
                         eq_refl eq_refl Hne eq_refl Hne)))).
Defined.

Lemma other_entries_are_untouched_witness :
  LocalStorage.getItem "/other"
    (LocalStorage.storage
       (LocalStorage.rejectStoredData
          (LocalStorage.load (Obj := string) "/form" None
                             [("/form", "{}"); ("/other", "x")])))
  = Some "x".
Proof.
  assert (Hne : "/other" <> "/form") by discriminate.
  exact (proj1 (proj2 (proj2 (other_entries_are_untouched
                         string (fun text => text) (fun text => Some text)
                         (LocalStorage.load "/form" None
                            [("/form", "{}"); ("/other", "x")])
                         "/form" "/other" None eq_refl Hne)))).
Defined.

(** ** The display texts *)

Section SelectTextProperties.

Variable V : Type.
Variable O : Type.
Variable strictEq : V -> V -> bool.
Variable optionValue : O -> V.
Variable optionLabel : O -> string.
Hypothesis strictEq_spec : forall x y, strictEq x y = true <-> x = y.

Lemma find_first_match (v : V) (pre post : list O) (o : O) :
  optionValue o = v ->
  (forall o', In o' pre -> optionValue o' <> v) ->
  find (fun item => strictEq (optionValue item) v) (pre ++ o :: post) = Some o.
Proof.
  intros Ho Hpre.
  induction pre as [|y rest IH]; simpl.
  - replace (strictEq (optionValue o) v) with true
      by (symmetry; apply strictEq_spec, Ho).
    reflexivity.
  - destruct (strictEq (optionValue y) v) eqn:E.
    + apply strictEq_spec in E. exfalso.
      apply (Hpre y); [left; reflexivity | exact E].
    + apply IH. intros o' Hin. apply Hpre. right. exact Hin.
Qed.

Lemma find_no_match (v : V) (l : list O) :
  (forall o, In o l -> optionValue o <> v) ->
  find (fun item => strictEq (optionValue item) v) l = None.
Proof.
  intros Hl.
  induction l as [|y rest IH]; simpl.
  - reflexivity.
  - destruct (strictEq (optionValue y) v) eqn:E.
    + apply strictEq_spec in E. exfalso.
      apply (Hl y); [left; reflexivity | exact E].
    + apply IH. intros o Hin. apply Hl. right. exact Hin.
Qed.

(** X19.  The text a read-only Select displays is the label of the first
    option whose value is the committed value, and the empty text when
    there is no committed value or no option has it.  Hence a field fed
    from a URL displays nothing until the options arrive, and nothing at
    all when the request fails. *)
Theorem select_displays_label_of_committed_value
        (s : Select.t V O) (v : V) :
  modelValue (Select.edit s) = Some v ->
  (forall pre o post,
     Select.options s = pre ++ o :: post ->
     optionValue o = v ->
     (forall o', In o' pre -> optionValue o' <> v) ->
     SelectText.selectedOptionText strictEq optionValue optionLabel s
     = optionLabel o) /\
  ((forall o, In o (Select.options s) -> optionValue o <> v) ->
   SelectText.selectedOptionText strictEq optionValue optionLabel s = "") /\
  (forall ro ae u lbl, truthyString u = true ->
     SelectText.selectedOptionText strictEq optionValue optionLabel
       (Select.mounted (Select.create ro ae (Some v) u None lbl)) = "" /\
     SelectText.selectedOptionText strictEq optionValue optionLabel
       (Select.reject 0
          (Select.mounted (Select.create ro ae (Some v) u None lbl))) = "" /\
     forall pre o post,
       optionValue o = v ->
       (forall o', In o' pre -> optionValue o' <> v) ->
       SelectText.selectedOptionText strictEq optionValue optionLabel
         (Select.resolve 0 (pre ++ o :: post)
            (Select.mounted (Select.create ro ae (Some v) u None lbl)))
       = optionLabel o).
Proof.
  intros Hmv. unfold SelectText.selectedOptionText.
  split; [|split].
  - intros pre o post Hopts Ho Hpre.
    rewrite Hmv, Hopts, (find_first_match v pre post o Ho Hpre). reflexivity.
  - intros Hnone. rewrite Hmv, (find_no_match v _ Hnone). reflexivity.
  - intros ro ae u lbl Hu.
    unfold Select.resolve, Select.reject, Select.mounted, Select.create.
    simpl. rewrite Hu. simpl.
    split; [destruct ro; reflexivity|].
    split; [destruct ro; reflexivity|].
    intros pre o post Ho Hpre.
    replace (modelValue (createField selectWatch ro ae (Some v)))
      with (Some v) by (destruct ro; reflexivity).
    rewrite (find_first_match v pre post o Ho Hpre). reflexivity.
Qed.

End SelectTextProperties.

Lemma select_displays_label_of_committed_value_witness :
  SelectText.selectedOptionText Z.eqb Multiselect.id Multiselect.name
    (Select.resolve 0 ([itemB] ++ itemA :: [Multiselect.mkItem 1 "A2"])
       (Select.mounted
          (Select.create true true (Some 1%Z) (Some "/api/tags") None None)))
  = "A".
Proof.
  assert (Hpre : forall o', In o' [itemB] -> Multiselect.id o' <> 1%Z).
  { intros o' [H|[]]. subst o'. discriminate. }
  exact (proj2 (proj2 (proj2 (proj2
           (select_displays_label_of_committed_value
              Z Multiselect.Item Z.eqb Multiselect.id Multiselect.name
              Z.eqb_eq
              (Select.create true true (Some 1%Z) None (Some []) None)
              1%Z eq_refl))
           true true (Some "/api/tags") None eq_refl))
           [itemB] itemA [Multiselect.mkItem 1 "A2"] eq_refl Hpre).
Defined.

Section TextareaProperties.

Import Textarea.

(** X20.  The text a read-only Textarea renders holds no line break: each
    one has become the four characters of a break tag, so the text is three
    characters longer per line break, and a text without line breaks
    (also the missing and the empty one) is rendered as it is. *)
Theorem textarea_text_has_no_line_break (modelValue : option string) :
  countNewlines (textareaAsPlainText modelValue) = 0 /\
  String.length (textareaAsPlainText modelValue)
  = String.length (match modelValue with Some s => s | None => "" end)
    + 3 * countNewlines (match modelValue with Some s => s | None => "" end) /\
  (countNewlines (match modelValue with Some s => s | None => "" end) = 0 ->
   textareaAsPlainText modelValue
   = match modelValue with Some s => s | None => "" end).
Proof.
  assert (Hrep : forall s,
            countNewlines (replaceNewlines s) = 0 /\
            String.length (replaceNewlines s)
            = String.length s + 3 * countNewlines s /\
            (countNewlines s = 0 -> replaceNewlines s = s)).
  { induction s as [|c rest [IH1 [IH2 IH3]]]; simpl.
    - auto.
    - destruct (Ascii.eqb c newline) eqn:E.
      + unfold newline in *. cbn. cbn in IH1. rewrite IH1, IH2.
        repeat split; lia.
      + simpl. rewrite E, IH1, IH2.
        repeat split; simpl; try lia. intros H. rewrite IH3 by exact H.
        reflexivity. }
  destruct modelValue as [s|]; simpl; [|auto].
  destruct (String.eqb_spec s "") as [->|_]; [simpl; auto | apply Hrep].
Qed.

Lemma textarea_text_has_no_line_break_witness :
  textareaAsPlainText (Some "no break here") = "no break here".
Proof.
  exact (proj2 (proj2 (textarea_text_has_no_line_break
                         (Some "no break here"))) eq_refl).
Defined.

End TextareaProperties.

(** ** The add dialog of Multiselect *)

Section AddDialogProperties.

Import AddDialog.

(** X21.  Creating an option sends one POST, to [addUrl] when it is set
    and to [url] otherwise, carrying the typed name, and never touches the
    options, the search requests or the emit log, however it ends.  When
    the POST fails, one creation failure is reported and the dialog stays
    open with the text; when it succeeds, the dialog is closed, the text
    cleared and the remount key flipped, and a failure is reported all the
    same where no widget is rendered to toggle.  The loading dialog is
    closed in every case. *)
Theorem createElement_outcomes (s : t) (widget : bool) :
  posts (createElement s) = posts s ++ [mkPost (target s) (addInputValue s)] /\
  (truthyString (addUrl s) = true -> target s = addUrl s) /\
  (truthyString (addUrl s) = false -> target s = Multiselect.url (base s)) /\
  showCreateDialog (createElement s) = true /\
  (* the POST fails *)
  (showAddDialog (createRejected (createElement s)) = showAddDialog s /\
   addInputValue (createRejected (createElement s)) = addInputValue s /\
   showCreateDialog (createRejected (createElement s)) = false /\
   Multiselect.toasts (base (createRejected (createElement s)))
   = Multiselect.toasts (base s)
     ++ [createFailure (Multiselect.label (base s))]) /\
  (* the POST succeeds *)
  (showAddDialog (createResolved widget (createElement s)) = false /\
   addInputValue (createResolved widget (createElement s)) = "" /\
   remount (createResolved widget (createElement s)) = negb (remount s) /\
   showCreateDialog (createResolved widget (createElement s)) = false /\
   Multiselect.toasts (base (createResolved widget (createElement s)))
   = Multiselect.toasts (base s)
     ++ (if widget then []
         else [createFailure (Multiselect.label (base s))])) /\
  (* in every case *)
  (Multiselect.options (base (createRejected (createElement s)))
   = Multiselect.options (base s) /\
   Multiselect.options (base (createResolved widget (createElement s)))
   = Multiselect.options (base s) /\
   Multiselect.requests (base (createRejected (createElement s)))
   = Multiselect.requests (base s) /\
   Multiselect.requests (base (createResolved widget (createElement s)))
   = Multiselect.requests (base s) /\
   posts (createResolved widget (createElement s)) = posts (createElement s) /\
   posts (createRejected (createElement s)) = posts (createElement s)).
Proof.
  unfold target.
  split; [reflexivity|].
  split; [intros ->; reflexivity|].
  split; [intros ->; reflexivity|].
  split; [reflexivity|].
  split; [repeat split|].
  split; [|destruct widget; repeat split].
  destruct widget; simpl; rewrite ?app_nil_r; repeat split.
Qed.

Lemma createElement_outcomes_witness :
  postUrl (target_post (typeName "Rocq" (addEntry
             (init (searchField []) (Some ""))))) = Some "/api/tags".
Proof.
  unfold target_post.
  destruct (createElement_outcomes
              (typeName "Rocq" (addEntry (init (searchField []) (Some ""))))
              true)
    as [_ [_ [Hurl _]]].
  exact (Hurl eq_refl).
Defined.

End AddDialogProperties.

Lemma dedupe_fixes_duplicate_free_lists_witness :
  Multiselect.dedupe [itemB; itemA] = [itemB; itemA] /\
  Multiselect.dedupe (Multiselect.dedupe [itemA; itemB; itemA])
  = Multiselect.dedupe [itemA; itemB; itemA].
Proof.
  assert (Hnd : NoDup (map Multiselect.id [itemB; itemA])).
  { repeat constructor; simpl; intros H;
      repeat (destruct H as [H|H]; [discriminate|]); exact H. }
  split.
  - exact (proj2 (proj1 (dedupe_fixes_duplicate_free_lists [itemB; itemA]))
                 Hnd).
  - exact (proj2 (proj2 (dedupe_fixes_duplicate_free_lists
                           [itemA; itemB; itemA]))).
Defined.

(** ** Loading from a URL in Multiselect *)

Section RemoteLoading.

Import Multiselect.

(** X22.  While the load request of a URL-fed Multiselect is outstanding,
    a re-render lists the selected values as options.  A response replaces
    them by the loaded list, and later re-renders leave that list alone;
    a failure after such a re-render leaves the selected values listed. *)
Theorem selected_values_listed_while_loading
        (ro ae : bool) (sel r : list Item) (u lbl : option string) :
  truthyString u = true ->
  options (mount (create ro ae (Some sel) u None lbl false)) = [] /\
  options (steps [Render] (mount (create ro ae (Some sel) u None lbl false)))
  = sel /\
  options (steps [Render; Resolved 0 r]
                 (mount (create ro ae (Some sel) u None lbl false))) = r /\
  options (steps [Render; Resolved 0 r; Render]
                 (mount (create ro ae (Some sel) u None lbl false))) = r /\
  options (steps [Render; Rejected 0]
                 (mount (create ro ae (Some sel) u None lbl false))) = sel /\
  isLoading (steps [Render; Rejected 0]
                   (mount (create ro ae (Some sel) u None lbl false))) = false.
Proof.
  intros Hu.
  destruct ro;
    unfold steps, mount, mounted, create; simpl; rewrite Hu; simpl;
    repeat split.
Qed.

Lemma selected_values_listed_while_loading_witness :
  options (steps [Render; Rejected 0] (remoteField [itemA])) = [itemA].
Proof.
  exact (proj1 (proj2 (proj2 (proj2 (proj2
           (selected_values_listed_while_loading
              true true [itemA] [] (Some "/api/tags") (Some "tags")
              eq_refl)))))).
Defined.

End RemoteLoading.

(** ** The requests of the whole Multiselect *)

Section WidgetRequests.

Lemma requests_rerender (s : AddDialog.t) :
  Multiselect.requests (AddDialog.base (rerender s))
  = Multiselect.requests (AddDialog.base s) /\
  AddDialog.posts (rerender s) = AddDialog.posts s.
Proof.
  unfold rerender.
  destruct (beforeUpdate_options_only (AddDialog.base s)) as [l Hl].
  simpl. rewrite Hl. auto.
Qed.

Lemma requests_widgetStep (s : AddDialog.t) (e : WidgetEvent) :
  Multiselect.requests (AddDialog.base (widgetStep s e))
  = Multiselect.requests (AddDialog.base s) ++ searched [e] s /\
  AddDialog.posts (widgetStep s e) = AddDialog.posts s ++ posted [e] s.
Proof.
  destruct e; cbn [widgetStep searched posted]; rewrite ?app_nil_r.
  - cbn [AddDialog.base AddDialog.setBase AddDialog.posts].
    rewrite requests_step. auto.
  - destruct (Multiselect.widgetShown (AddDialog.base s)); [|auto].
    destruct (requests_rerender (AddDialog.addEntry s)) as [-> ->]. auto.
  - destruct (dialogOpen s); [|auto].
    destruct (requests_rerender (AddDialog.typeName v s)) as [-> ->]. auto.
  - destruct (dialogOpen s); [|auto].
    destruct (requests_rerender (AddDialog.cancel s)) as [-> ->]. auto.
  - destruct (dialogOpen s); [|rewrite app_nil_r; auto].
    destruct (requests_rerender (AddDialog.createElement s)) as [-> ->].
    auto.
  - destruct (AddDialog.showCreateDialog s); [|auto].
    destruct (requests_rerender (AddDialog.createResolved widget s))
      as [-> ->].
    destruct widget; auto.
  - destruct (AddDialog.showCreateDialog s); [|auto].
    destruct (requests_rerender (AddDialog.createRejected s)) as [-> ->].
    auto.
Qed.

(** X2.  The requests of a mounted Multiselect, add dialog included, are
    these and no others: the option-fetch log grows by one search per
    changed filter text of two or more characters typed into the rendered
    widget of an on-demand-search field, and the POST log by one POST per
    click on the Add button of the open dialog.  Responses, failures,
    re-renders and every other event send nothing; nothing is sent again
    after a failure. *)
Theorem multiselect_requests_are_searches_and_posts
        (es : list WidgetEvent) (s : AddDialog.t) :
  Multiselect.requests (AddDialog.base (widgetSteps es s))
  = Multiselect.requests (AddDialog.base s) ++ searched es s /\
  AddDialog.posts (widgetSteps es s) = AddDialog.posts s ++ posted es s.
Proof.
  revert s. unfold widgetSteps.
  induction es as [|e rest IH]; intros s; cbn [fold_left searched posted].
  - rewrite !app_nil_r. auto.
  - destruct (IH (widgetStep s e)) as [-> ->].
    destruct (requests_widgetStep s e) as [-> ->].
    cbn [searched posted]. rewrite !app_nil_r, <- !app_assoc. auto.
Qed.

End WidgetRequests.

(** ** A failed load on mount *)

Section FailedMountFetch.

Import Multiselect.

(** C4, as stated, fails in Multiselect.  The field is read-only with item
    A selected and its load request is outstanding; the user clicks the
    Edit icon, the component re-renders and [beforeUpdate] lists the
    selected item; the request then fails, and the options are that item,
    not the empty list. *)
Lemma failed_mount_fetch_after_rerender_keeps_selection :
  lookupPending 0 (steps [Click OpToggle] (remoteField [itemA]))
  = Some KMounted /\
  isLoading (steps [Click OpToggle; Rejected 0] (remoteField [itemA]))
  = false /\
  options (steps [Click OpToggle; Rejected 0] (remoteField [itemA]))
  = [itemA] /\
  options (steps [Click OpToggle; Rejected 0] (remoteField [itemA])) <> [].
Proof.
  repeat split; try reflexivity. vm_compute. discriminate.
Qed.

(** While the load request of a mounted URL-fed field is outstanding,
    nothing has been reported and nothing else has been sent. *)
Lemma remote_load_outstanding
      (ro ae : bool) (mvs : option (list Item)) (u lbl : option string)
      (es : list Event) :
  truthyString u = true ->
  lookupPending 0 (steps es (mount (create ro ae mvs u None lbl false)))
  = Some KMounted ->
  pending (steps es (mount (create ro ae mvs u None lbl false)))
  = [(0, KMounted)] /\
  toasts (steps es (mount (create ro ae mvs u None lbl false))) = [] /\
  isLoading (steps es (mount (create ro ae mvs u None lbl false))) = true /\
  requests (steps es (mount (create ro ae mvs u None lbl false)))
  = [loadRequest u] /\
  label (steps es (mount (create ro ae mvs u None lbl false))) = lbl.
Proof.
  intros Hu.
  assert (Hinv : forall es s,
            onDemandSearch s = false -> requests s = [loadRequest u] ->
            label s = lbl ->
            (pending s = [(0, KMounted)] /\ toasts s = [] /\
             isLoading s = true) \/ pending s = [] ->
            onDemandSearch (steps es s) = false /\
            requests (steps es s) = [loadRequest u] /\
            label (steps es s) = lbl /\
            ((pending (steps es s) = [(0, KMounted)] /\
              toasts (steps es s) = [] /\
              isLoading (steps es s) = true) \/ pending (steps es s) = [])).
  { clear es. unfold steps.
    induction es as [|e rest IH]; intros s Hods Hreq Hlbl Hp;
      cbn [fold_left]; [auto|].
    assert (Hkeep : forall l, onDemandSearch (setOptions l s) = false /\
                      requests (setOptions l s) = [loadRequest u] /\
                      label (setOptions l s) = lbl /\
                      ((pending (setOptions l s) = [(0, KMounted)] /\
                        toasts (setOptions l s) = [] /\
                        isLoading (setOptions l s) = true)
                       \/ pending (setOptions l s) = [])) by (intros l; auto).
    assert (Hstep : onDemandSearch (step s e) = false /\
                    requests (step s e) = [loadRequest u] /\
                    label (step s e) = lbl /\
                    ((pending (step s e) = [(0, KMounted)] /\
                      toasts (step s e) = [] /\ isLoading (step s e) = true)
                     \/ pending (step s e) = [])).
    { destruct e; cbn [step].
      - destruct (offered op (edit s)); [|auto].
        destruct (settle_options_only (tmpVal (edit s))
                    (setEdit (call op (edit s)) s)) as [l ->].
        apply (Hkeep l).
      - destruct (widgetShown s); [|auto].
        unfold removeAll. destruct (readOnly (edit s)); [|apply (Hkeep (options s))].
        destruct (settleFresh_options_only
                    (setEdit (setTmpVal (Some []) (edit s)) s)) as [l ->].
        apply (Hkeep l).
      - destruct (negb (readOnly (edit s))); [apply (Hkeep (options s))|].
        destruct (isEditing (edit s)); [|auto].
        destruct (settleFresh_options_only
                    (setEdit (editDraft (Some v) (edit s)) s)) as [l ->].
        apply (Hkeep l).
      - destruct (widgetShown s); [|auto].
        unfold onFilter. rewrite Hods. auto.
      - destruct (settle_options_only (tmpVal (edit s))
                    (setEdit (modelValueHandler selectWatch v
                                (setModelValue v (edit s))) s)) as [l ->].
        apply (Hkeep l).
      - destruct Hp as [[Hp [Ht Hl]]|Hp];
          [|rewrite (lookupPending_none i s Hp); auto].
        assert (Hlook : lookupPending i s
                        = if Nat.eqb i 0 then Some KMounted else None)
          by (unfold lookupPending; rewrite Hp; simpl;
              destruct (Nat.eqb i 0); reflexivity).
        rewrite Hlook. destruct (Nat.eqb i 0) eqn:Hi; [|auto 10].
        unfold mountedResolved, unpark. simpl. rewrite Hp. simpl.
        rewrite Hi. simpl. auto 10.
      - destruct Hp as [[Hp [Ht Hl]]|Hp];
          [|rewrite (lookupPending_none i s Hp); auto].
        assert (Hlook : lookupPending i s
                        = if Nat.eqb i 0 then Some KMounted else None)
          by (unfold lookupPending; rewrite Hp; simpl;
              destruct (Nat.eqb i 0); reflexivity).
        rewrite Hlook. destruct (Nat.eqb i 0) eqn:Hi; [|auto 10].
        unfold mountedRejected, unpark. simpl. rewrite Hp. simpl.
        rewrite Hi. simpl. auto 10.
      - destruct (beforeUpdate_options_only s) as [l ->]. apply (Hkeep l). }
    destruct Hstep as [S1 [S2 [S3 S4]]].
    apply IH; assumption. }
  intros Hpend.
  destruct (Hinv es (mount (create ro ae mvs u None lbl false)))
    as [_ [Hreq [Hlbl Hp]]].
  - destruct ro, mvs; unfold mount, mounted, create; simpl; rewrite Hu;
      reflexivity.
  - destruct ro, mvs; unfold mount, mounted, create; simpl; rewrite Hu;
      reflexivity.
  - destruct ro, mvs; unfold mount, mounted, create; simpl; rewrite Hu;
      reflexivity.
  - left. destruct ro, mvs; unfold mount, mounted, create; simpl; rewrite Hu;
      auto.
  - destruct Hp as [[Hp [Ht Hl]]|Hp].
    + auto 10.
    + unfold lookupPending in Hpend. rewrite Hp in Hpend. discriminate.
Qed.

(** C4, amended.  In Remote mode [mounted] sends one load request.  When
    it fails, [isLoading] becomes false, exactly one load failure is
    reported, nothing is sent again and nothing stays outstanding, and the
    options are left as they were just before the failure: in Select, and
    in a Multiselect in which nothing happened while the request was
    outstanding, that is the empty list; in a Multiselect that re-rendered
    meanwhile, [beforeUpdate] had listed the selected values and they stay.
    The first half is Select, the second Multiselect after any events [es]
    that left the request outstanding. *)
Theorem failed_mount_fetch_leaves_options_as_they_were
        (V O : Type) (ro ae : bool) (mv : option V)
        (mvs : option (list Item)) (u lbl : option string)
        (es : list Event) :
  truthyString u = true ->
  lookupPending 0 (steps es (mount (create ro ae mvs u None lbl false)))
  = Some KMounted ->
  (Select.requests
     (Select.mounted (Select.create (O := O) ro ae mv u None lbl))
   = [loadRequest u] /\
   Select.isLoading
     (Select.mounted (Select.create (O := O) ro ae mv u None lbl)) = true /\
   Select.options
     (Select.reject 0
        (Select.mounted (Select.create (O := O) ro ae mv u None lbl))) = [] /\
   Select.isLoading
     (Select.reject 0
        (Select.mounted (Select.create (O := O) ro ae mv u None lbl)))
   = false /\
   Select.toasts
     (Select.reject 0
        (Select.mounted (Select.create (O := O) ro ae mv u None lbl)))
   = [loadFailure lbl] /\
   Select.requests
     (Select.reject 0
        (Select.mounted (Select.create (O := O) ro ae mv u None lbl)))
   = [loadRequest u] /\
   Select.pending
     (Select.reject 0
        (Select.mounted (Select.create (O := O) ro ae mv u None lbl)))
   = []) /\
  (requests (mount (create ro ae mvs u None lbl false)) = [loadRequest u] /\
   isLoading (steps es (mount (create ro ae mvs u None lbl false))) = true /\
   options (step (steps es (mount (create ro ae mvs u None lbl false)))
                 (Rejected 0))
   = options (steps es (mount (create ro ae mvs u None lbl false))) /\
   options (step (mount (create ro ae mvs u None lbl false)) (Rejected 0))
   = [] /\
   isLoading (step (steps es (mount (create ro ae mvs u None lbl false)))
                   (Rejected 0))
   = false /\
   toasts (step (steps es (mount (create ro ae mvs u None lbl false)))
                (Rejected 0))
   = [loadFailure lbl] /\
   requests (step (steps es (mount (create ro ae mvs u None lbl false)))
                  (Rejected 0))
   = [loadRequest u] /\
   pending (step (steps es (mount (create ro ae mvs u None lbl false)))
                 (Rejected 0))
   = [] /\
   (forall sel, mvs = Some sel ->
      options (steps [Render; Rejected 0]
                     (mount (create ro ae mvs u None lbl false))) = sel)).
Proof.
  intros Hu Hpend. split.
  - unfold Select.reject, Select.mounted, Select.create. simpl.
    rewrite Hu. simpl. repeat split.
  - destruct (remote_load_outstanding ro ae mvs u lbl es Hu Hpend)
      as [Hp [Ht [Hl [Hr Hlbl]]]].
    split; [destruct ro, mvs; unfold mount, mounted, create; simpl;
            rewrite Hu; reflexivity|].
    split; [exact Hl|].
    split; [cbn [step]; rewrite Hpend; reflexivity|].
    split; [destruct ro, mvs; unfold mount, mounted, create; simpl;
            rewrite Hu; reflexivity|].
    cbn [step]. rewrite Hpend.
    unfold mountedRejected, unpark. simpl. rewrite Ht, Hr, Hlbl, Hp.
    repeat split.
    intros sel ->.
    destruct ro; unfold steps, mount, mounted, create; simpl; rewrite Hu;
      reflexivity.
Qed.

Lemma failed_mount_fetch_leaves_options_as_they_were_witness :
  truthyString (Some "/api/tags") = true /\
  options (step (steps [Click OpToggle; Pick []] (remoteField [itemA]))
                (Rejected 0))
  = options (steps [Click OpToggle; Pick []] (remoteField [itemA])) /\
  toasts (step (steps [Click OpToggle; Pick []] (remoteField [itemA]))
               (Rejected 0))
  = [loadFailure (Some "tags")] /\
  options (step (remoteField [itemA]) (Rejected 0)) = [].
Proof.
  destruct (failed_mount_fetch_leaves_options_as_they_were
              string string true true (Some "x") (Some [itemA])
              (Some "/api/tags") (Some "tags") [Click OpToggle; Pick []]
              eq_refl eq_refl)
    as [_ [_ [_ [Hopt [Hdirect [_ [Htoast _]]]]]]].
  split; [reflexivity|].
  split; [exact Hopt|].
  split; [exact Htoast | exact Hdirect].
Defined.

End FailedMountFetch.

(** ** Begin-edit *)

Lemma vmodelRun_select_invariant {V : Type}
      (dec : forall x y : option V, {x = y} + {x <> y})
      (es : list (FieldEvent V)) (s : Field V) :
  readOnly s = true -> watching s = true ->
  (isEditing s = false -> mirrored s) ->
  readOnly (vmodelRun dec selectWatch es s) = true /\
  watching (vmodelRun dec selectWatch es s) = true /\
  (isEditing (vmodelRun dec selectWatch es s) = false ->
   mirrored (vmodelRun dec selectWatch es s)).
Proof.
  revert s. unfold vmodelRun.
  induction es as [|e rest IH]; intros s Hro Hw Hm; cbn [fold_left].
  - auto.
  - destruct (vmodelStep_select_invariant dec s e Hro Hw Hm) as [H1 [H2 H3]].
    apply IH; assumption.
Qed.

(** C7, as stated, fails: [toggleEdit] assigns [isEditing] only, so the
    draft a begin-edit starts from is the one the field holds.  In a Select
    and in a Multiselect whose host did not store the value committed by
    the last accept, the field is back in Display mode with that value as
    its draft, and the next begin-edit does not set it to the committed
    value. *)
Lemma beginEdit_keeps_unapplied_commit :
  (mode (acceptEdit (editDraft (Some "y")
           (toggleEdit (createField selectWatch true true (Some "x")))))
   = Display /\
   modelValue (toggleEdit (acceptEdit (editDraft (Some "y")
                 (toggleEdit (createField selectWatch true true (Some "x"))))))
   = Some "x" /\
   tmpVal (toggleEdit (acceptEdit (editDraft (Some "y")
             (toggleEdit (createField selectWatch true true (Some "x"))))))
   <> modelValue
        (toggleEdit (acceptEdit (editDraft (Some "y")
           (toggleEdit (createField selectWatch true true (Some "x"))))))) /\
  (mode (Multiselect.edit
           (Multiselect.steps [Multiselect.Click OpToggle; Multiselect.Pick [];
                               Multiselect.Click OpAccept]
                              (remoteField [itemA]))) = Display /\
   tmpVal (Multiselect.edit
             (Multiselect.steps [Multiselect.Click OpToggle; Multiselect.Pick [];
                                 Multiselect.Click OpAccept;
                                 Multiselect.Click OpToggle]
                                (remoteField [itemA])))
   <> modelValue (Multiselect.edit
             (Multiselect.steps [Multiselect.Click OpToggle; Multiselect.Pick [];
                                 Multiselect.Click OpAccept;
                                 Multiselect.Click OpToggle]
                                (remoteField [itemA])))).
Proof.
  repeat split; try reflexivity; vm_compute; discriminate.
Qed.

(** C7, amended.  Begin-edit (the Edit icon's [toggleEdit], in Display
    mode) does not assign the draft.  It switches the field to Editing and
    emits nothing; in Multiselect it sends no request, shows no toast and
    parks nothing, and the only other state the click can change is the
    option list, which the re-render's [beforeUpdate] sets to the selected
    values while a URL load is outstanding.  The draft it starts from is
    the mirrored copy: it is the committed value whenever that copy is in
    sync, and in a read-only Select or Multiselect whose host stores every
    commit ([v-model]) it is in sync at every begin-edit, after any clicks,
    draft edits and external updates. *)
Theorem beginEdit_starts_from_mirrored_draft
        (V : Type) (dec : forall x y : option V, {x = y} + {x <> y})
        (s : Field V) (ae : bool) (mv : option V) (es : list (FieldEvent V))
        (m : Multiselect.t) :
  (isEditing s = false ->
   toggleEdit s = setIsEditing true s /\
   mode (toggleEdit s) = Editing /\
   tmpVal (toggleEdit s) = tmpVal s /\
   emitted (toggleEdit s) = emitted s /\
   (mirrored s -> tmpVal (toggleEdit s) = modelValue (toggleEdit s))) /\
  (offered OpToggle
     (vmodelRun dec selectWatch es (createField selectWatch true ae mv))
   = true ->
   mode (vmodelStep dec selectWatch
           (vmodelRun dec selectWatch es (createField selectWatch true ae mv))
           (FClick OpToggle)) = Editing /\
   tmpVal (vmodelStep dec selectWatch
             (vmodelRun dec selectWatch es
                        (createField selectWatch true ae mv))
             (FClick OpToggle))
   = modelValue
       (vmodelStep dec selectWatch
          (vmodelRun dec selectWatch es (createField selectWatch true ae mv))
          (FClick OpToggle))) /\
  (offered OpToggle (Multiselect.edit m) = true ->
   Multiselect.step m (Multiselect.Click OpToggle)
   = Multiselect.beforeUpdate
       (Multiselect.setEdit (setIsEditing true (Multiselect.edit m)) m) /\
   Multiselect.edit (Multiselect.step m (Multiselect.Click OpToggle))
   = setIsEditing true (Multiselect.edit m) /\
   Multiselect.requests (Multiselect.step m (Multiselect.Click OpToggle))
   = Multiselect.requests m /\
   Multiselect.toasts (Multiselect.step m (Multiselect.Click OpToggle))
   = Multiselect.toasts m /\
   Multiselect.pending (Multiselect.step m (Multiselect.Click OpToggle))
   = Multiselect.pending m /\
   Multiselect.isLoading (Multiselect.step m (Multiselect.Click OpToggle))
   = Multiselect.isLoading m /\
   (Multiselect.onDemandSearch m = true \/
    truthy (Multiselect.data m) = true \/
    Multiselect.isLoading m = false ->
    Multiselect.options (Multiselect.step m (Multiselect.Click OpToggle))
    = Multiselect.options m)).
Proof.
  split; [|split].
  - intros Hd. unfold toggleEdit, mode, mirrored. rewrite Hd. simpl. auto.
  - intros Hoff. cbn [vmodelStep]. rewrite Hoff. cbn [call].
    destruct (vmodelRun_select_invariant
                dec es (createField selectWatch true ae mv)
                eq_refl eq_refl (fun _ => eq_refl))
      as [_ [_ Hsync]].
    unfold offered in Hoff.
    apply andb_true_iff in Hoff as [_ Hd]. apply negb_true_iff in Hd.
    split.
    + unfold mode, toggleEdit. simpl. rewrite Hd. reflexivity.
    + exact (Hsync Hd).
  - intros Hoff. cbn [Multiselect.step]. rewrite Hoff.
    unfold offered in Hoff.
    apply andb_true_iff in Hoff as [_ Hd]. apply negb_true_iff in Hd.
    assert (Hrun : Multiselect.settle (tmpVal (Multiselect.edit m))
                     (Multiselect.setEdit (call OpToggle (Multiselect.edit m)) m)
                   = Multiselect.beforeUpdate
                       (Multiselect.setEdit
                          (setIsEditing true (Multiselect.edit m)) m)).
    { unfold Multiselect.settle, Multiselect.afterTmpVal.
      cbn [call]. unfold toggleEdit. rewrite Hd. cbn [negb].
      destruct (beforeUpdate_options_only
                  (Multiselect.setEdit
                     (setIsEditing true (Multiselect.edit m)) m))
        as [l Hl].
      rewrite Hl. simpl.
      destruct (Multiselect.value_eq_dec _ _) as [_|Hne];
        [reflexivity | contradiction]. }
    rewrite Hrun.
    destruct (beforeUpdate_options_only
                (Multiselect.setEdit (setIsEditing true (Multiselect.edit m)) m))
      as [l Hl].
    split; [reflexivity|].
    split; [rewrite Hl; reflexivity|].
    split; [rewrite Hl; reflexivity|].
    split; [rewrite Hl; reflexivity|].
    split; [rewrite Hl; reflexivity|].
    split; [rewrite Hl; reflexivity|].
    clear l Hl Hrun. unfold Multiselect.beforeUpdate. simpl.
    intros Hcase.
    destruct (Multiselect.value _); [|reflexivity].
    destruct (Multiselect.data m) eqn:Hdata,
             (Multiselect.isLoading m) eqn:Hload,
             (Multiselect.onDemandSearch m) eqn:Hods;
      simpl; try reflexivity;
      simpl in Hcase; destruct Hcase as [H|[H|H]]; discriminate.
Qed.

Lemma beginEdit_starts_from_mirrored_draft_witness :
  offered OpToggle
    (vmodelRun Input.value_eq_dec selectWatch
       [FClick OpToggle; FDraft (Some "y"); FClick OpAccept; FHost (Some "z")]
       (createField selectWatch true true (Some "x"))) = true /\
  tmpVal
    (vmodelStep Input.value_eq_dec selectWatch
       (vmodelRun Input.value_eq_dec selectWatch
          [FClick OpToggle; FDraft (Some "y"); FClick OpAccept;
           FHost (Some "z")]
          (createField selectWatch true true (Some "x")))
       (FClick OpToggle)) = Some "z" /\
  offered OpToggle (Multiselect.edit (draftSearchField [itemA])) = true /\
  Multiselect.options
    (Multiselect.step (draftSearchField [itemA])
                      (Multiselect.Click OpToggle))
  = Multiselect.options (draftSearchField [itemA]).
Proof.
  destruct (beginEdit_starts_from_mirrored_draft
              string Input.value_eq_dec
              (createField selectWatch true true (Some "x")) true (Some "x")
              [FClick OpToggle; FDraft (Some "y"); FClick OpAccept;
               FHost (Some "z")]
              (draftSearchField [itemA]))
    as [_ [Hseed Hmulti]].
  destruct (Hseed eq_refl) as [_ Hdraft].
  destruct (Hmulti eq_refl) as [_ [_ [_ [_ [_ [_ Hopt]]]]]].
  split; [reflexivity|].
  split; [exact Hdraft|].
  split; [reflexivity|].
  apply Hopt. left. reflexivity.
Defined.
